(** * dashboard2: the SQL dashboard backend of [templates/app.py]

    A shallow embedding of the four routines of [app.py] that carry the
    program's logic: [get_connection], [query_database], [get_schema] and
    [create_example_databases].  The routines are written as state-passing
    computations that may raise; [sqlite3], the one outside collaborator, is
    modelled in two layers below the program:

    - [Sql]: the storage engine, as a relational store with the statements
      that [app.py] itself issues given their meaning, and every other
      statement text left to a parameter;
    - [Sqlite3]: the Python binding: connections, cursors, the implicit
      transaction opened by a DML statement, [commit] and [close].

    Strings are byte strings; [str.upper] and the engine's comparison of
    names act on the ASCII letters.  One request runs at a time. *)

From Stdlib Require Import ZArith QArith Ascii String List Lia.
From stdpp Require Import base strings list gmap pretty.

Close Scope Q_scope.
Open Scope Z_scope.
Open Scope nat_scope.

(** ** Python values and the string operations [app.py] uses *)

Module Py.

(** A value as the DB-API hands it over: [None], [int], [float], [str] or
    [bytes].  Floats are kept as exact rationals. *)
Inductive cell : Type :=
| CNull
| CInt (z : Z)
| CReal (q : Q)
| CText (s : string)
| CBlob (b : list ascii).

#[global] Instance Q_eq_dec : EqDecision Q.
Proof. solve_decision. Defined.

#[global] Instance cell_eq_dec : EqDecision cell.
Proof. solve_decision. Defined.

(** Truth value of a cell, as [if row[2]] tests it. *)
Definition truthy (c : cell) : bool :=
  match c with
  | CNull => false
  | CInt z => negb (Z.eqb z 0)
  | CReal q => negb (Z.eqb (Qnum q) 0)
  | CText s => negb (String.eqb s "")
  | CBlob b => match b with [] => false | _ => true end
  end.

(** [str.upper] on the ASCII letters; every other byte is kept. *)
Definition upper_ascii (c : ascii) : ascii :=
  let n := N_of_ascii c in
  if (N.leb 97 n && N.leb n 122)%bool then ascii_of_N (n - 32) else c.

Fixpoint upper (s : string) : string :=
  match s with
  | EmptyString => EmptyString
  | String c s' => String (upper_ascii c) (upper s')
  end.

(** [s.startswith(p)]. *)
Fixpoint startswith (p s : string) : bool :=
  match p, s with
  | EmptyString, _ => true
  | String a p', String b s' => Ascii.eqb a b && startswith p' s'
  | String _ _, EmptyString => false
  end.

(** [kw in s] on two strings: [kw] occurs in [s] as a substring. *)
Fixpoint str_in (kw s : string) : bool :=
  startswith kw s ||
  match s with
  | EmptyString => false
  | String _ s' => str_in kw s'
  end.

(** [any(keyword in s for keyword in kws)]. *)
Definition any_in (kws : list string) (s : string) : bool :=
  existsb (fun keyword => str_in keyword s) kws.

(** Exceptions that the modelled routines can meet.  [sqlite3_Error] stands
    for [sqlite3.Error] and all of its subclasses; its argument is [str(e)]. *)
Inductive exn : Type :=
| sqlite3_Error (msg : string)
| ValueError (msg : string)
| KeyError (key : string)
| IndexError
| AttributeError
| TypeError.

Inductive outcome (A : Type) : Type :=
| Return (a : A)
| Raise (e : exn).
Arguments Return {A} a.
Arguments Raise {A} e.

(** [row[i]] on a sequence: [IndexError] past the end. *)
Definition getitem {A} (row : list A) (i : nat) : outcome A :=
  match nth_error row i with
  | Some x => Return x
  | None => Raise IndexError
  end.

(** A [dict] in insertion order: assignment to a present key keeps its
    place, assignment to a new key appends. *)
Section Dict.
Context {K V : Type} (eqb : K -> K -> bool).

Fixpoint dict_get (k : K) (d : list (K * V)) : option V :=
  match d with
  | [] => None
  | (k', v) :: d' => if eqb k k' then Some v else dict_get k d'
  end.

Fixpoint dict_set (k : K) (v : V) (d : list (K * V)) : list (K * V) :=
  match d with
  | [] => [(k, v)]
  | (k', v') :: d' =>
      if eqb k k' then (k, v) :: d' else (k', v') :: dict_set k v d'
  end.
End Dict.

End Py.
Import Py.

(** ** The column classifier of [get_schema] (app.py, lines 104-115) *)

(** Line 104: [row[2].upper() if row[2] else ''].  An [int] or [float] has
    no [upper]; a [bytes] value has one, but the [str in bytes] test that
    follows is a [TypeError]. *)
Definition col_type_of (row2 : cell) : outcome string :=
  if truthy row2 then
    match row2 with
    | CText s => Return (upper s)
    | CBlob _ => Raise TypeError
    | _ => Raise AttributeError
    end
  else Return "".

(** Lines 107-115. *)
Definition color_class (col_type : string) : string :=
  if any_in ["INT"; "REAL"; "NUM"] col_type then "primary"
  else if any_in ["CHAR"; "TEXT"; "CLOB"] col_type then "success"
  else if any_in ["DATE"; "TIME"] col_type then "warning"
  else if any_in ["BLOB"; "BOOL"] col_type then "info"
  else "secondary".

(** ** The storage engine *)

Module Sql.

(** *** Lexical layer

    The lexer knows words, single-quoted literals (a quote inside a literal
    is written twice) and the punctuation of the statements below.  It stops
    at the first character outside this alphabet, and at a semicolon that
    is not the end of the text: such a text is not the fragment's to
    judge. *)

Inductive token : Type :=
| TWord (w : string)
| TStr (s : string)
| TLParen | TRParen | TComma | TSemi | TQMark | TEq.

Inductive lexed : Type :=
| Lexed (toks : list token)
| Unterminated
| Foreign.

Definition is_space (c : ascii) : bool :=
  let n := N_of_ascii c in
  (N.eqb n 32 || N.leb 9 n && N.leb n 13)%bool.

Definition is_word_char (c : ascii) : bool :=
  let n := N_of_ascii c in
  (N.leb 48 n && N.leb n 57 || N.leb 65 n && N.leb n 90
   || N.leb 97 n && N.leb n 122 || N.eqb n 95 || N.leb 128 n)%bool.

Definition punct (c : ascii) : option token :=
  if Ascii.eqb c "(" then Some TLParen
  else if Ascii.eqb c ")" then Some TRParen
  else if Ascii.eqb c "," then Some TComma
  else if Ascii.eqb c ";" then Some TSemi
  else if Ascii.eqb c "?" then Some TQMark
  else if Ascii.eqb c "=" then Some TEq
  else None.

Definition push (t : token) (r : lexed) : lexed :=
  match r with
  | Lexed ts => Lexed (t :: ts)
  | other => other
  end.

(** Where the lexer stands: between tokens, inside a word or inside a
    literal; the characters read so far are kept newest first. *)
Inductive mode : Type :=
| Between
| InWord (acc : string)
| InStr (acc : string).

Definition flush (m : mode) (r : lexed) : lexed :=
  match m with
  | InWord acc => push (TWord (String.rev acc)) r
  | _ => r
  end.

Fixpoint lex (m : mode) (s : string) : lexed :=
  match s with
  | EmptyString =>
      match m with
      | InStr _ => Unterminated
      | _ => flush m (Lexed [])
      end
  | String c s' =>
      match m with
      | InStr acc =>
          if Ascii.eqb c "'" then
            match s' with
            | String "'"%char s'' => lex (InStr (String "'" acc)) s''
            | _ => push (TStr (String.rev acc)) (lex Between s')
            end
          else lex (InStr (String c acc)) s'
      | _ =>
          if is_word_char c then
            lex (InWord (String c (match m with InWord acc => acc | _ => "" end))) s'
          else if is_space c then flush m (lex Between s')
          else if Ascii.eqb c "'" then flush m (lex (InStr "") s')
          else match punct c with
               | Some TSemi =>
                   match lex Between s' with
                   | Lexed [] => flush m (Lexed [TSemi])
                   | _ => Foreign
                   end
               | Some t => flush m (push t (lex Between s'))
               | None => Foreign
               end
      end
  end.

Definition tokens (q : string) : lexed := lex Between q.

(** *** The relational store

    A database is modelled by its tables: their columns as declared, their
    rows, and the counter behind AUTOINCREMENT.  Views, indexes, triggers,
    constraints other than the key, and locks held by other processes are
    left out. *)

Record column : Type := Column {
  c_name : string;      (* as declared *)
  c_decl : string;      (* the declared type, as declared; empty when absent *)
  c_pk : bool           (* INTEGER PRIMARY KEY AUTOINCREMENT *)
}.

Record table : Type := Table {
  t_name : string;
  t_columns : list column;     (* in declaration order *)
  t_seq : Z;                   (* largest row id handed out so far *)
  t_rows : list (list cell)    (* in insertion order *)
}.

(** A database is its tables, oldest first.  Names are compared without
    regard to (ASCII) case, as the engine does. *)
Definition DB : Type := list table.

Definition same_name (a b : string) : bool := String.eqb (upper a) (upper b).

Fixpoint find_table (name : string) (db : DB) : option table :=
  match db with
  | [] => None
  | t :: db' => if same_name name (t_name t) then Some t else find_table name db'
  end.

Definition drop_table (name : string) (db : DB) : DB :=
  List.filter (fun t => negb (same_name name (t_name t))) db.

Fixpoint replace_table (t' : table) (db : DB) : DB :=
  match db with
  | [] => []
  | t :: db' =>
      if same_name (t_name t') (t_name t) then t' :: db'
      else t :: replace_table t' db'
  end.

(** [name LIKE 'sqlite_%']: the six letters in either case, then at least
    one more character. *)
Definition like_sqlite_ (name : string) : bool :=
  (startswith "SQLITE" (upper name) && Nat.ltb 6 (String.length name))%bool.

(** What a statement hands back: the column names of its result set and the
    rows, or nothing when it has no result set. *)
Definition result_set : Type := option (list string * list (list cell)).

(** The engine's verdict on a statement: its error message, or the database
    it leaves and the result. *)
Definition answer : Type := string + DB * result_set.

(** *** The statements of the fragment *)

Inductive stmt : Type :=
| DropTableIfExists (name : string)
| CreateTable (name : string) (cols : list column)
| InsertInto (name : string) (cols : list string) (nvalues : nat)
| SelectUserTables
| PragmaTableInfo (name : string).

Definition kw (k w : string) : bool := String.eqb k (upper w).

(** The engine's keywords.  Some of them may still stand as names; which
    ones is the engine's to say, so a name among them is not the
    fragment's to judge. *)
Definition keywords : list string :=
  ["ABORT"; "ACTION"; "ADD"; "AFTER"; "ALL"; "ALTER"; "ALWAYS"; "ANALYZE";
   "AND"; "AS"; "ASC"; "ATTACH"; "AUTOINCREMENT"; "BEFORE"; "BEGIN";
   "BETWEEN"; "BY"; "CASCADE"; "CASE"; "CAST"; "CHECK"; "COLLATE"; "COLUMN";
   "COMMIT"; "CONFLICT"; "CONSTRAINT"; "CREATE"; "CROSS"; "CURRENT";
   "CURRENT_DATE"; "CURRENT_TIME"; "CURRENT_TIMESTAMP"; "DATABASE";
   "DEFAULT"; "DEFERRABLE"; "DEFERRED"; "DELETE"; "DESC"; "DETACH";
   "DISTINCT"; "DO"; "DROP"; "EACH"; "ELSE"; "END"; "ESCAPE"; "EXCEPT";
   "EXCLUDE"; "EXCLUSIVE"; "EXISTS"; "EXPLAIN"; "FAIL"; "FILTER"; "FIRST";
   "FOLLOWING"; "FOR"; "FOREIGN"; "FROM"; "FULL"; "GENERATED"; "GLOB";
   "GROUP"; "GROUPS"; "HAVING"; "IF"; "IGNORE"; "IMMEDIATE"; "IN"; "INDEX";
   "INDEXED"; "INITIALLY"; "INNER"; "INSERT"; "INSTEAD"; "INTERSECT"; "INTO";
   "IS"; "ISNULL"; "JOIN"; "KEY"; "LAST"; "LEFT"; "LIKE"; "LIMIT"; "MATCH";
   "MATERIALIZED"; "NATURAL"; "NO"; "NOT"; "NOTHING"; "NOTNULL"; "NULL";
   "NULLS"; "OF"; "OFFSET"; "ON"; "OR"; "ORDER"; "OTHERS"; "OUTER"; "OVER";
   "PARTITION"; "PLAN"; "PRAGMA"; "PRECEDING"; "PRIMARY"; "QUERY"; "RAISE";
   "RANGE"; "RECURSIVE"; "REFERENCES"; "REGEXP"; "REINDEX"; "RELEASE";
   "RENAME"; "REPLACE"; "RESTRICT"; "RETURNING"; "RIGHT"; "ROLLBACK"; "ROW";
   "ROWS"; "SAVEPOINT"; "SELECT"; "SET"; "TABLE"; "TEMP"; "TEMPORARY";
   "THEN"; "TIES"; "TO"; "TRANSACTION"; "TRIGGER"; "UNBOUNDED"; "UNION";
   "UNIQUE"; "UPDATE"; "USING"; "VACUUM"; "VALUES"; "VIEW"; "VIRTUAL";
   "WHEN"; "WHERE"; "WINDOW"; "WITH"; "WITHOUT"].

Definition starts_with_digit (w : string) : bool :=
  match w with
  | String c _ => let n := N_of_ascii c in (N.leb 48 n && N.leb n 57)%bool
  | EmptyString => false
  end.

(** A word that names a user object: not a number, not a keyword, and not
    in the engine's own [sqlite_] name space. *)
Definition is_name (w : string) : bool :=
  (negb (starts_with_digit w)
   && negb (existsb (String.eqb (upper w)) keywords)
   && negb (startswith "SQLITE_" (upper w)))%bool.

(** Column definitions up to the closing parenthesis: a name, at most one
    type word, and on an INTEGER column the key clause that [app.py] uses. *)
Fixpoint parse_columns (ts : list token) : option (list column * list token) :=
  match ts with
  | TWord n :: TRParen :: rest =>
      if is_name n then Some ([Column n "" false], rest) else None
  | TWord n :: TComma :: rest =>
      if is_name n then
        match parse_columns rest with
        | Some (cs, rest') => Some (Column n "" false :: cs, rest')
        | None => None
        end
      else None
  | TWord n :: TWord ty :: TRParen :: rest =>
      if (is_name n && is_name ty)%bool then Some ([Column n ty false], rest)
      else None
  | TWord n :: TWord ty :: TComma :: rest =>
      if (is_name n && is_name ty)%bool then
        match parse_columns rest with
        | Some (cs, rest') => Some (Column n ty false :: cs, rest')
        | None => None
        end
      else None
  | TWord n :: TWord ty :: TWord p :: TWord k :: TWord a :: TRParen :: rest =>
      if (is_name n && kw "INTEGER" ty && kw "PRIMARY" p && kw "KEY" k
          && kw "AUTOINCREMENT" a)%bool
      then Some ([Column n ty true], rest) else None
  | TWord n :: TWord ty :: TWord p :: TWord k :: TWord a :: TComma :: rest =>
      if (is_name n && kw "INTEGER" ty && kw "PRIMARY" p && kw "KEY" k
          && kw "AUTOINCREMENT" a)%bool
      then
        match parse_columns rest with
        | Some (cs, rest') => Some (Column n ty true :: cs, rest')
        | None => None
        end
      else None
  | _ => None
  end.

(** A comma-separated list of names up to the closing parenthesis. *)
Fixpoint parse_names (ts : list token) : option (list string * list token) :=
  match ts with
  | TWord n :: TRParen :: rest =>
      if is_name n then Some ([n], rest) else None
  | TWord n :: TComma :: rest =>
      if is_name n then
        match parse_names rest with
        | Some (ns, rest') => Some (n :: ns, rest')
        | None => None
        end
      else None
  | _ => None
  end.

(** A comma-separated list of [?] up to the closing parenthesis. *)
Fixpoint parse_qmarks (ts : list token) : option (nat * list token) :=
  match ts with
  | TQMark :: TRParen :: rest => Some (1, rest)
  | TQMark :: TComma :: rest =>
      match parse_qmarks rest with
      | Some (n, rest') => Some (S n, rest')
      | None => None
      end
  | _ => None
  end.

(** A statement ends with its last token or with one semicolon. *)
Definition at_end (ts : list token) : bool :=
  match ts with
  | [] | [TSemi] => true
  | _ => false
  end.

Fixpoint distinct_names (ns : list string) : bool :=
  match ns with
  | [] => true
  | n :: ns' => (negb (existsb (same_name n) ns') && distinct_names ns')%bool
  end.

Definition parse (ts : list token) : option stmt :=
  match ts with
  | TWord d :: TWord t :: TWord i :: TWord e :: TWord name :: rest =>
      if (kw "DROP" d && kw "TABLE" t && kw "IF" i && kw "EXISTS" e
          && is_name name && at_end rest)%bool
      then Some (DropTableIfExists name)
      else if (kw "SELECT" d && kw "NAME" t && kw "FROM" i
               && kw "SQLITE_MASTER" e && kw "WHERE" name)%bool then
        match rest with
        | TWord ty :: TEq :: TStr lit :: TWord a :: TWord n :: TWord no
            :: TWord l :: TStr pat :: rest' =>
            if (kw "TYPE" ty && String.eqb lit "table" && kw "AND" a
                && kw "NAME" n && kw "NOT" no && kw "LIKE" l
                && String.eqb pat "sqlite_%" && at_end rest')%bool
            then Some SelectUserTables else None
        | _ => None
        end
      else None
  | TWord c :: TWord t :: TWord name :: TLParen :: rest =>
      if (kw "CREATE" c && kw "TABLE" t && is_name name)%bool then
        match parse_columns rest with
        | Some (cols, rest') =>
            if (at_end rest' && distinct_names (map c_name cols)
                && Nat.leb (length (List.filter c_pk cols)) 1)%bool
            then Some (CreateTable name cols) else None
        | None => None
        end
      else if (kw "INSERT" c && kw "INTO" t && is_name name)%bool then
        match parse_names rest with
        | Some (cols, TWord v :: TLParen :: rest') =>
            match parse_qmarks rest' with
            | Some (n, rest'') =>
                if (kw "VALUES" v && distinct_names cols && at_end rest'')%bool
                then Some (InsertInto name cols n) else None
            | None => None
            end
        | _ => None
        end
      else None
  | [TWord p; TWord f; TLParen; TStr name; TRParen] =>
      if (kw "PRAGMA" p && kw "TABLE_INFO" f
          && negb (startswith "SQLITE_" (upper name)))%bool
      then Some (PragmaTableInfo name) else None
  | _ => None
  end.

(** *** Meaning of the statements *)

(** [PRAGMA table_info]: one row per column, in declaration order:
    (cid, name, type, notnull, dflt_value, pk). *)
Definition table_info_header : list string :=
  ["cid"; "name"; "type"; "notnull"; "dflt_value"; "pk"].

Fixpoint table_info_rows (cid : Z) (cols : list column) : list (list cell) :=
  match cols with
  | [] => []
  | c :: cols' =>
      [CInt cid; CText (c_name c); CText (c_decl c); CInt 0; CNull;
       CInt (if c_pk c then 1 else 0)]
      :: table_info_rows (cid + 1) cols'
  end.

(** Column affinity, from the declared type. *)
Inductive affinity : Type :=
| AffInteger | AffText | AffBlob | AffReal | AffNumeric.

Definition affinity_of (decl : string) : affinity :=
  let t := upper decl in
  if str_in "INT" t then AffInteger
  else if any_in ["CHAR"; "CLOB"; "TEXT"] t then AffText
  else if (str_in "BLOB" t || String.eqb t "")%bool then AffBlob
  else if any_in ["REAL"; "FLOA"; "DOUB"] t then AffReal
  else AffNumeric.

(** A value that the column stores as it comes, without conversion. *)
Definition fits (a : affinity) (v : cell) : bool :=
  match a, v with
  | _, CNull | _, CBlob _ | AffBlob, _ => true
  | AffText, CText _ => true
  | AffReal, CReal _ => true
  | AffInteger, CInt _ | AffNumeric, CInt _ => true
  | _, _ => false
  end.

Definition max_rowid : Z := 9223372036854775807.

(** The value bound to column [n], when the statement lists it. *)
Fixpoint bound_value (n : string) (cols : list string) (params : list cell)
  : option cell :=
  match cols, params with
  | c :: cols', v :: params' =>
      if same_name n c then Some v else bound_value n cols' params'
  | _, _ => None
  end.

(** The row an INSERT stores, column by column in declaration order; [None]
    when a value would need conversion or sets the key itself. *)
Fixpoint new_row (seq : Z) (tcols : list column) (cols : list string)
    (params : list cell) : option (list cell) :=
  match tcols with
  | [] => Some []
  | c :: tcols' =>
      let v :=
        match bound_value (c_name c) cols params with
        | Some v =>
            if (negb (c_pk c) && fits (affinity_of (c_decl c)) v)%bool
            then Some v else None
        | None => Some (if c_pk c then CInt (seq + 1) else CNull)
        end in
      match v, new_row seq tcols' cols params with
      | Some v, Some vs => Some (v :: vs)
      | _, _ => None
      end
  end.

Definition has_column (t : table) (n : string) : bool :=
  existsb (fun c => same_name n (c_name c)) (t_columns t).

Definition bindings_error (uses supplied : nat) : string :=
  "Incorrect number of bindings supplied. The current statement uses "
  +:+ pretty uses +:+ ", and there are " +:+ pretty supplied +:+ " supplied.".

(** INSERT on the table it names: the engine's message, or the table with
    the new row; [None] when the row needs more of the engine than is
    written out here. *)
Definition insert_into (t : table) (name : string) (cols : list string)
    (nvalues : nat) (params : list cell) : option (string + table) :=
  match List.filter (fun n => negb (has_column t n)) cols with
  | n :: _ => Some (inl ("table " +:+ name +:+ " has no column named " +:+ n))
  | [] =>
      if negb (Nat.eqb nvalues (length cols))
      then Some (inl (pretty nvalues +:+ " values for "
                      +:+ pretty (length cols) +:+ " columns"))
      else if negb (Nat.eqb (length params) nvalues)
      then Some (inl (bindings_error nvalues (length params)))
      else if (existsb c_pk (t_columns t) && Z.leb max_rowid (t_seq t))%bool
      then Some (inl "database or disk is full")
      else
        match new_row (t_seq t) (t_columns t) cols params with
        | None => None
        | Some row =>
            let seq' :=
              if existsb c_pk (t_columns t) then (t_seq t + 1)%Z
              else t_seq t in
            Some (inr (Table (t_name t) (t_columns t) seq' (t_rows t ++ [row])))
        end
  end.


(** One statement of the fragment on a database.  [None]: the statement
    needs more of the engine than is written out here. *)
Definition exec (st : stmt) (params : list cell) (db : DB) : option answer :=
  match st with
  | DropTableIfExists name =>
      if negb (Nat.eqb (length params) 0)
      then Some (inl (bindings_error 0 (length params)))
      else Some (inr (drop_table name db, None))
  | CreateTable name cols =>
      match find_table name db with
      | Some _ => Some (inl ("table " +:+ name +:+ " already exists"))
      | None =>
          if negb (Nat.eqb (length params) 0)
          then Some (inl (bindings_error 0 (length params)))
          else Some (inr (db ++ [Table name cols 0 []], None))
      end
  | InsertInto name cols nvalues =>
      match find_table name db with
      | None => Some (inl ("no such table: " +:+ name))
      | Some t =>
          match insert_into t name cols nvalues params with
          | None => None
          | Some (inl msg) => Some (inl msg)
          | Some (inr t') => Some (inr (replace_table t' db, None))
          end
      end
  | SelectUserTables =>
      if negb (Nat.eqb (length params) 0)
      then Some (inl (bindings_error 0 (length params)))
      else
        Some (inr (db,
                   Some (["name"],
                         map (fun t => [CText (t_name t)])
                             (List.filter (fun t => negb (like_sqlite_ (t_name t)))
                                     db))))
  | PragmaTableInfo name =>
      if negb (Nat.eqb (length params) 0)
      then Some (inl (bindings_error 0 (length params)))
      else
        Some (inr (db,
                   Some (table_info_header,
                         match find_table name db with
                         | Some t => table_info_rows 0 (t_columns t)
                         | None => []
                         end)))
  end.

(** *** The engine

    What the model does not spell out is taken as given: [other_sql], the
    engine on every statement outside the fragment; [connect_fault], the
    storage that cannot be opened, with the engine's message; and [str_of],
    Python's [str] on a value that is not itself a [str]. *)
Class Outside : Type := {
  other_sql : string -> list cell -> DB -> answer;
  connect_fault : string -> option string;
  str_of : cell -> string
}.

(** How the fragment reads a statement text: as one of its statements, as
    a text no engine accepts (a literal left open), or as not its own. *)
Inductive reading : Type :=
| Statement (st : stmt)
| Illegal
| Beyond.

Definition read (q : string) : reading :=
  match tokens q with
  | Unterminated => Illegal
  | Foreign => Beyond
  | Lexed ts =>
      match parse ts with
      | Some st => Statement st
      | None => Beyond
      end
  end.

Definition run `{Outside} (q : string) (params : list cell) (db : DB) : answer :=
  match read q with
  | Illegal => inl "unrecognized token"   (* in the engine's own words *)
  | Beyond => other_sql q params db
  | Statement st =>
      match exec st params db with
      | Some a => a
      | None => other_sql q params db
      end
  end.

End Sql.

(** ** The [sqlite3] binding *)

Module Sqlite3.

(** An open connection: its file, and the database as its open transaction
    sees it, if it has one. *)
Record connection : Type := Connection {
  c_handle : nat;
  c_file : string;
  c_pending : option Sql.DB
}.

(** The world outside the program: the database files (a file that is not
    there yet reads as the empty database, which is what connecting to it
    creates) and the connections that are open. *)
Record world : Type := World {
  files : gmap string Sql.DB;
  open_conns : list connection;
  next_handle : nat
}.

Definition stored (w : world) (path : string) : Sql.DB :=
  default [] (files w !! path).

(** Computations on the world that may raise. *)
Definition M (A : Type) : Type := world -> outcome A * world.

Definition ret {A} (a : A) : M A := fun w => (Return a, w).
Definition raise {A} (e : exn) : M A := fun w => (Raise e, w).
Definition bind {A B} (m : M A) (k : A -> M B) : M B :=
  fun w =>
    match m w with
    | (Return a, w') => k a w'
    | (Raise e, w') => (Raise e, w')
    end.
Definition lift {A} (o : outcome A) : M A := fun w => (o, w).

Declare Scope py_scope.
Delimit Scope py_scope with py.
Notation "x <- m ;; k" := (bind m (fun x => k))
  (at level 100, m at next level, right associativity) : py_scope.
Notation "m ;; k" := (bind m (fun _ => k))
  (at level 100, right associativity) : py_scope.

(** [for x in xs: acc = body(x, acc)], left to right, leaving at the first
    exception. *)
Fixpoint for_each {A S} (body : A -> S -> M S) (xs : list A) (acc : S) : M S :=
  match xs with
  | [] => ret acc
  | x :: xs' => bind (body x acc) (for_each body xs')
  end.

Fixpoint find_conn (h : nat) (cs : list connection) : option connection :=
  match cs with
  | [] => None
  | c :: cs' => if Nat.eqb h (c_handle c) then Some c else find_conn h cs'
  end.

Fixpoint update_conn (c' : connection) (cs : list connection) : list connection :=
  match cs with
  | [] => []
  | c :: cs' =>
      if Nat.eqb (c_handle c') (c_handle c) then c' :: cs'
      else c :: update_conn c' cs'
  end.

Fixpoint remove_conn (h : nat) (cs : list connection) : list connection :=
  match cs with
  | [] => []
  | c :: cs' => if Nat.eqb h (c_handle c) then cs' else c :: remove_conn h cs'
  end.

Definition closed_message : string := "Cannot operate on a closed database.".

(** Blanks, tabs and line ends are skipped before the statement's first
    word is looked at. *)
Definition is_blank (c : ascii) : bool :=
  let n := N_of_ascii c in
  (N.eqb n 32 || N.eqb n 13 || N.eqb n 10 || N.eqb n 9)%bool.

Fixpoint lstrip (s : string) : string :=
  match s with
  | String c s' => if is_blank c then lstrip s' else s
  | EmptyString => s
  end.

(** The statements before which the binding opens a transaction. *)
Definition is_dml (q : string) : bool :=
  let p := upper (lstrip q) in
  (startswith "INSERT" p || startswith "UPDATE" p || startswith "DELETE" p
   || startswith "REPLACE" p)%bool.

(** A cursor after [execute]: [description], of whose 7-tuples only the
    first entry, the column name, is kept, and the rows still to fetch. *)
Record cursor : Type := Cursor {
  description : option (list string);
  fetchall : list (list cell)
}.

Definition cursor_of (rs : Sql.result_set) : cursor :=
  match rs with
  | Some (header, rows) => Cursor (Some header) rows
  | None => Cursor None []
  end.

Section Binding.
Context `{!Sql.Outside}.

(** [sqlite3.connect(path)]. *)
Definition connect (path : string) : M nat :=
  fun w =>
    match Sql.connect_fault path with
    | Some msg => (Raise (sqlite3_Error msg), w)
    | None =>
        let h := next_handle w in
        (Return h,
         World (files w) (Connection h path None :: open_conns w) (S h))
    end.

(** One statement on a connection.  Outside a transaction a statement
    takes effect on the file at once, unless it is DML, which opens the
    transaction; inside one it changes what the transaction sees. *)
Definition step (conn : nat) (q : string) (params : list cell) (dml : bool)
  : M Sql.result_set :=
  fun w =>
    match find_conn conn (open_conns w) with
    | None => (Raise (sqlite3_Error closed_message), w)
    | Some c =>
        let db := match c_pending c with
                  | Some d => d
                  | None => stored w (c_file c)
                  end in
        match Sql.run q params db with
        | inl msg => (Raise (sqlite3_Error msg), w)
        | inr (db', rs) =>
            if (dml || bool_decide (is_Some (c_pending c)))%bool then
              (Return rs,
               World (files w)
                     (update_conn (Connection conn (c_file c) (Some db'))
                                  (open_conns w))
                     (next_handle w))
            else
              (Return rs,
               World (<[c_file c := db']> (files w)) (open_conns w)
                     (next_handle w))
        end
    end.

(** [cur = conn.cursor(); cur.execute(q)]. *)
Definition execute (conn : nat) (q : string) : M cursor :=
  (rs <- step conn q [] (is_dml q) ;; ret (cursor_of rs))%py.

(** [cur.executemany(q, seq)]. *)
Definition executemany (conn : nat) (q : string) (seq : list (list cell))
  : M unit :=
  if is_dml q then
    for_each (fun params _ => (_ <- step conn q params true ;; ret tt)%py)
             seq tt
  else raise (sqlite3_Error "executemany() can only execute DML statements.").

(** [conn.commit()]. *)
Definition commit (conn : nat) : M unit :=
  fun w =>
    match find_conn conn (open_conns w) with
    | None => (Raise (sqlite3_Error closed_message), w)
    | Some c =>
        match c_pending c with
        | None => (Return tt, w)
        | Some db =>
            (Return tt,
             World (<[c_file c := db]> (files w))
                   (update_conn (Connection conn (c_file c) None)
                                (open_conns w))
                   (next_handle w))
        end
    end.

(** [conn.close()]: what was not committed is gone. *)
Definition close (conn : nat) : M unit :=
  fun w =>
    (Return tt,
     World (files w) (remove_conn conn (open_conns w)) (next_handle w)).

End Binding.

End Sqlite3.

(** ** The program: [templates/app.py] *)

Module App.
Import Sqlite3.
Local Open Scope py_scope.

Arguments CReal q%_Q.

(** [==] on two cells, as a [dict] compares its keys: an [int] and a
    [float] of the same value are the same key. *)
Definition cell_eqb (a b : cell) : bool :=
  match a, b with
  | CNull, CNull => true
  | CInt x, CInt y => Z.eqb x y
  | CReal x, CReal y => Qeq_bool x y
  | CInt x, CReal y | CReal y, CInt x => Qeq_bool (inject_Z x) y
  | CText x, CText y => String.eqb x y
  | CBlob x, CBlob y => bool_decide (x = y)
  | _, _ => false
  end.

(** [str(BASE_DIR / name)]. *)
Definition path_join (base name : string) : string :=
  if String.eqb base "/" then "/" +:+ name else base +:+ "/" +:+ name.

(** Lines 36-39: the registry that [app.py] starts with. *)
Definition configured (BASE_DIR : string) : list (string * string) :=
  [("flights", path_join BASE_DIR "flights.db");
   ("transactions", path_join BASE_DIR "transactions.db")].

(** The dictionary that [query_database] returns. *)
Record envelope : Type := Envelope {
  success : bool;
  columns : list string;
  data : list (list cell);
  error : option string
}.

(** What [get_schema] returns: database name, then table name, then the
    column strings. *)
Definition snapshot : Type := list (string * list (cell * list string)).

(** The statements of [create_example_databases], as written there. *)
Definition drop_flights : string := "DROP TABLE IF EXISTS flights".

Definition create_flights : string := "
        CREATE TABLE flights (
            flight_id INTEGER PRIMARY KEY AUTOINCREMENT,
            airline TEXT,
            origin TEXT,
            destination TEXT,
            departure_date TEXT,
            arrival_date TEXT,
            status TEXT,
            price REAL
        )
    ".

Definition flights_data : list (list cell) :=
  [[CText "Air Blue"; CText "São Paulo"; CText "Rio de Janeiro"; CText "2025-01-10"; CText "2025-01-10"; CText "On Time"; CReal 150.0];
   [CText "Air Green"; CText "Rio de Janeiro"; CText "São Paulo"; CText "2025-01-11"; CText "2025-01-11"; CText "Delayed"; CReal 200.0];
   [CText "Air Red"; CText "Brasília"; CText "São Paulo"; CText "2025-02-05"; CText "2025-02-05"; CText "Cancelled"; CReal 300.0];
   [CText "Air Blue"; CText "São Paulo"; CText "Brasília"; CText "2025-03-15"; CText "2025-03-15"; CText "On Time"; CReal 220.0];
   [CText "Air Green"; CText "Curitiba"; CText "São Paulo"; CText "2025-04-20"; CText "2025-04-20"; CText "On Time"; CReal 180.0];
   [CText "Air Red"; CText "São Paulo"; CText "Curitiba"; CText "2025-05-30"; CText "2025-05-30"; CText "On Time"; CReal 160.0];
   [CText "Air Yellow"; CText "Rio de Janeiro"; CText "Brasília"; CText "2025-06-12"; CText "2025-06-12"; CText "Delayed"; CReal 250.0];
   [CText "Air Blue"; CText "Brasília"; CText "Rio de Janeiro"; CText "2025-07-22"; CText "2025-07-22"; CText "On Time"; CReal 210.0];
   [CText "Air Yellow"; CText "Curitiba"; CText "Rio de Janeiro"; CText "2025-08-05"; CText "2025-08-05"; CText "Cancelled"; CReal 230.0];
   [CText "Air Green"; CText "São Paulo"; CText "Curitiba"; CText "2025-09-10"; CText "2025-09-10"; CText "On Time"; CReal 190.0]].

Definition insert_flights : string := "
        INSERT INTO flights (airline, origin, destination, departure_date, arrival_date, status, price)
        VALUES (?, ?, ?, ?, ?, ?, ?)
    ".

Definition drop_transactions : string := "DROP TABLE IF EXISTS transactions".

Definition create_transactions : string := "
        CREATE TABLE transactions (
            transaction_id INTEGER PRIMARY KEY AUTOINCREMENT,
            date TEXT,
            merchant TEXT,
            category TEXT,
            amount REAL,
            card_type TEXT,
            location TEXT
        )
    ".

Definition transactions_data : list (list cell) :=
  [[CText "2025-01-15"; CText "Supermercado SP"; CText "Groceries"; CReal 120.50; CText "Visa"; CText "São Paulo"];
   [CText "2025-01-20"; CText "Restaurante RJ"; CText "Dining"; CReal 80.75; CText "MasterCard"; CText "Rio de Janeiro"];
   [CText "2025-02-12"; CText "Posto de Gasolina"; CText "Fuel"; CReal 50.00; CText "Visa"; CText "Brasília"];
   [CText "2025-02-28"; CText "Loja de Roupas"; CText "Clothing"; CReal 200.00; CText "Amex"; CText "Curitiba"];
   [CText "2025-03-10"; CText "Cinema SP"; CText "Entertainment"; CReal 45.00; CText "Visa"; CText "São Paulo"];
   [CText "2025-04-05"; CText "Farmácia RJ"; CText "Pharmacy"; CReal 60.00; CText "MasterCard"; CText "Rio de Janeiro"];
   [CText "2025-05-14"; CText "Academia"; CText "Fitness"; CReal 120.00; CText "Amex"; CText "São Paulo"];
   [CText "2025-06-18"; CText "Livraria"; CText "Books"; CReal 75.25; CText "Visa"; CText "Brasília"];
   [CText "2025-07-07"; CText "Hotel"; CText "Travel"; CReal 500.00; CText "MasterCard"; CText "Curitiba"];
   [CText "2025-08-19"; CText "Loja Eletrônica"; CText "Electronics"; CReal 350.00; CText "Amex"; CText "São Paulo"];
   [CText "2025-09-30"; CText "Restaurante Brasília"; CText "Dining"; CReal 90.00; CText "Visa"; CText "Brasília"];
   [CText "2025-10-05"; CText "Supermercado RJ"; CText "Groceries"; CReal 130.75; CText "MasterCard"; CText "Rio de Janeiro"];
   [CText "2025-10-15"; CText "Festa"; CText "Entertainment"; CReal 200.00; CText "Amex"; CText "São Paulo"];
   [CText "2025-11-01"; CText "Serviços"; CText "Utilities"; CReal 180.00; CText "Visa"; CText "Curitiba"];
   [CText "2025-11-20"; CText "Transporte"; CText "Transport"; CReal 30.50; CText "MasterCard"; CText "Rio de Janeiro"]].

Definition insert_transactions : string := "
        INSERT INTO transactions (date, merchant, category, amount, card_type, location)
        VALUES (?, ?, ?, ?, ?, ?)
    ".

(** The catalog query of [get_schema], lines 92-94. *)
Definition select_tables : string :=
  "SELECT name FROM sqlite_master WHERE type='table' AND name NOT LIKE 'sqlite_%'".

Section Program.
Context `{!Sql.Outside}.
(** The module global [DATABASES], in insertion order. *)
Variable DATABASES : list (string * string).

(** A value placed in an f-string. *)
Definition format (v : cell) : string :=
  match v with
  | CText s => s
  | _ => Sql.str_of v
  end.

(** Lines 42-48.  [row_factory] changes neither [row[i]] nor [list(row)]. *)
Definition get_connection (db_name : string) : M nat :=
  match dict_get String.eqb db_name DATABASES with
  | None => raise (ValueError ("Database '" +:+ db_name +:+ "' not found."))
  | Some path => conn <- connect path ;; ret conn
  end.

(** Lines 51-78. *)
Definition query_database (db_name query : string) : M envelope :=
  fun w =>
    (* try: *)
    let '(conn, w1) := get_connection db_name w in
    let '(result, w2) :=
      match conn with
      | Raise e => (Raise e, w1)
      | Return conn =>
          (cur <- execute conn query ;;
           let rows := fetchall cur in
           let column_names :=
             match description cur with
             | Some ((_ :: _) as d) => map (fun description => description) d
             | _ => []
             end in
           let data := map (fun row => row) rows in
           ret (Envelope true column_names data None)) w1
      end in
    (* except sqlite3.Error as e: *)
    let result :=
      match result with
      | Raise (sqlite3_Error e) => Return (Envelope false [] [] (Some e))
      | other => other
      end in
    (* finally: if 'conn' in locals(): conn.close() *)
    let w3 :=
      match conn with
      | Return conn => snd (close conn w2)
      | Raise _ => w2
      end in
    (result, w3).

(** Lines 102-117: the string built for one row of [PRAGMA table_info]. *)
Definition column_with_type (row : list cell) : outcome string :=
  match getitem row 1 with
  | Raise e => Raise e
  | Return col_name =>
      match getitem row 2 with
      | Raise e => Raise e
      | Return row2 =>
          match col_type_of row2 with
          | Raise e => Raise e
          | Return col_type =>
              Return (format col_name +:+ " <span class='badge bg-"
                      +:+ color_class col_type +:+ " ms-1'>"
                      +:+ col_type +:+ "</span>")
          end
      end
  end.

(** [schema[db_name][table] = v]. *)
Definition set_table (db_name : string) (table : cell) (v : list string)
    (s : snapshot) : M snapshot :=
  match dict_get String.eqb db_name s with
  | Some tables =>
      ret (dict_set String.eqb db_name (dict_set cell_eqb table v tables) s)
  | None => raise (KeyError db_name)
  end.

(** Lines 100-118: the loop over the rows of one table. *)
Definition columns_with_types (rows : list (list cell)) : M (list string) :=
  for_each (fun row columns_with_types =>
              html_repr <- lift (column_with_type row) ;;
              ret (columns_with_types ++ [html_repr]))
           rows [].

(** Lines 97-119: the body of the loop over the tables of one database. *)
Definition inspect_table (conn : nat) (db_name : string) (table : cell)
    (schema : snapshot) : M snapshot :=
  cur <- execute conn ("PRAGMA table_info('" +:+ format table +:+ "')") ;;
  let rows := fetchall cur in
  columns_with_types <- columns_with_types rows ;;
  set_table db_name table columns_with_types schema.

(** Lines 88-120: the body of the loop over the configured databases. *)
Definition inspect_database (entry : string * string) (schema : snapshot)
  : M snapshot :=
  let '(db_name, db_path) := entry in
  let schema := dict_set String.eqb db_name [] schema in
  conn <- connect db_path ;;
  cur <- execute conn select_tables ;;
  tables <- for_each (fun row tables =>
               t <- lift (getitem row 0) ;; ret (tables ++ [t]))
             (fetchall cur) [] ;;
  schema <- for_each (inspect_table conn db_name) tables schema ;;
  close conn ;;
  ret schema.

(** Lines 81-121. *)
Definition get_schema : M snapshot :=
  for_each inspect_database DATABASES [].

(** [DATABASES[key]]. *)
Definition lookup_database (key : string) : M string :=
  match dict_get String.eqb key DATABASES with
  | Some path => ret path
  | None => raise (KeyError key)
  end.

(** Lines 124-203. *)
Definition create_example_databases : M unit :=
  path <- lookup_database "flights" ;;
  conn <- connect path ;;
  execute conn drop_flights ;;
  execute conn create_flights ;;
  executemany conn insert_flights flights_data ;;
  commit conn ;;
  close conn ;;
  path <- lookup_database "transactions" ;;
  conn <- connect path ;;
  execute conn drop_transactions ;;
  execute conn create_transactions ;;
  executemany conn insert_transactions transactions_data ;;
  commit conn ;;
  close conn.

End Program.

End App.

(** ** Notions of the specification, and of the statements below *)

Module Spec.
Import Sqlite3 App.







(** The column names of a result set, empty when there is none. *)
Definition header_of (rs : Sql.result_set) : list string :=
  match rs with
  | Some (d :: ds, _) => d :: ds
  | _ => []
  end.

(** The invariant of the specification's QueryResult. *)
Definition envelope_invariant (env : envelope) : Prop :=
  (success env = true <-> error env = None) /\
  (success env = false ->
   columns env = [] /\ data env = [] /\ error env <> None).

(** Rows that agree with their header; a result set always has columns. *)
Definition rectangular (rs : Sql.result_set) : Prop :=
  match rs with
  | None => True
  | Some (header, rows) =>
      header <> [] /\ Forall (fun row => length row = length header) rows
  end.

Section Engine.
Context `{!Sql.Outside}.



(** The engine's result sets are rectangular. *)
Definition results_rectangular : Prop :=
  forall q params db db' rs,
    Sql.other_sql q params db = inr (db', rs) -> rectangular rs.

(** A statement that begins as [PRAGMA table_info(] changes nothing,
    however it goes on. *)
Definition table_info_reads_only : Prop :=
  forall q params db db' rs,
    startswith "PRAGMA table_info(" q = true ->
    Sql.other_sql q params db = inr (db', rs) -> db' = db.

End Engine.






(** Two worlds with the same databases. *)
Definition same_stores (w w' : world) : Prop :=
  forall path, stored w' path = stored w path.

(** The statement text that [get_schema] builds for a table. *)
Definition table_info_text (name : string) : string :=
  "PRAGMA table_info('" +:+ name +:+ "')".

(** The string that stands for a column in the schema: its name, and its
    declared type in capitals on a badge of the type's class. *)
Definition column_string (c : Sql.column) : string :=
  Sql.c_name c +:+ " <span class='badge bg-"
  +:+ color_class (upper (Sql.c_decl c)) +:+ " ms-1'>"
  +:+ upper (Sql.c_decl c) +:+ "</span>".

(** The strings of the table that the engine finds under a name. *)
Definition table_strings (db : Sql.DB) (name : string) : list string :=
  match Sql.find_table name db with
  | Some t => map column_string (Sql.t_columns t)
  | None => []
  end.

(** A table name that needs no quoting inside a literal. *)
Fixpoint quote_free (s : string) : bool :=
  match s with
  | EmptyString => true
  | String c s' => (negb (Ascii.eqb c "'") && quote_free s')%bool
  end.

(** The user tables of a database, as the catalog query selects them. *)
Definition user_tables (db : Sql.DB) : list Sql.table :=
  List.filter (fun t => negb (Sql.like_sqlite_ (Sql.t_name t))) db.

End Spec.

(** ** A setting to run the program in *)

Module Reference.
Import Sqlite3 App.

(** The least engine: it knows the fragment and refuses the rest; all
    storage can be opened. *)
Definition fragment_only : Sql.Outside := {|
  Sql.other_sql := fun _ _ _ => inl "syntax error";
  Sql.connect_fault := fun _ => None;
  Sql.str_of := fun v =>
    match v with
    | CInt z => pretty z
    | _ => "None"
    end
|}.

Definition base_dir : string := "/srv/dashboard".
Definition flights_db : string := "/srv/dashboard/flights.db".
Definition transactions_db : string := "/srv/dashboard/transactions.db".

(** Before the first start: no database file, no connection. *)
Definition first_start : world := World ∅ [] 0.

(** After [create_example_databases]. *)
Definition seeded : world :=
  snd (create_example_databases (H := fragment_only) (configured base_dir)
         first_start).

(** The flights database with one more table, whose name holds a quote:
    what [CREATE TABLE] with the name between double quotes, sent through
    [query_database], leaves behind. *)
Definition quoted_table : Sql.table :=
  Sql.Table "a'b" [Sql.Column "x" "INT" false] 0 [].

Definition with_quoted_table : world :=
  World {[ flights_db := [quoted_table] ]} [] 0.

End Reference.

(** ** Further settings and notions *)

Module Scenarios.
Import Sqlite3 App.

(** An engine that, beyond the fragment, knows how to empty the flights
    table. *)
Definition delete_flights : string := "DELETE FROM flights".

Definition emptied (db : Sql.DB) : Sql.DB :=
  map (fun t =>
         if Sql.same_name "flights" (Sql.t_name t)
         then Sql.Table (Sql.t_name t) (Sql.t_columns t) (Sql.t_seq t) []
         else t) db.

Definition with_delete : Sql.Outside := {|
  Sql.other_sql := fun q _ db =>
    if String.eqb q delete_flights then inr (emptied db, None)
    else inl "syntax error";
  Sql.connect_fault := fun _ => None;
  Sql.str_of := Sql.str_of (Outside := Reference.fragment_only)
|}.


(** A name as it is written inside a single-quoted literal: every quote
    twice. *)
Fixpoint sql_quote (s : string) : string :=
  match s with
  | EmptyString => EmptyString
  | String c s' =>
      if Ascii.eqb c "'" then String "'" (String "'" (sql_quote s'))
      else String c (sql_quote s')
  end.

(** Two tables, one named as the other is written in a literal, in the
    flights database. *)
Definition plain_and_quoted : Sql.DB :=
  [Sql.Table "a''b" [Sql.Column "x" "INT" false] 0 [];
   Sql.Table "a''''b" [Sql.Column "y" "TEXT" false] 0 []].

Definition with_plain_and_quoted : world :=
  World {[ Reference.flights_db := plain_and_quoted ]} [] 0.

(** A flights database that holds tables of the user's own, and the table
    that the engine keeps for AUTOINCREMENT. *)
Definition several_tables : world :=
  World {[ Reference.flights_db :=
             [Sql.Table "zeta" [Sql.Column "z" "INT" false] 0 [[CInt 1]];
              Sql.Table "sqlite_sequence"
                        [Sql.Column "name" "" false; Sql.Column "seq" "" false]
                        0 [];
              Sql.Table "flights" [Sql.Column "old" "TEXT" false] 0
                        [[CText "stale"]];
              Sql.Table "alpha" [Sql.Column "a" "TEXT" false] 0 []] ]}
        [] 0.

(** The seeded databases seen from another moment of the process: other
    connections are open and other handles have been given out. *)
Definition seeded_later : world :=
  World (files Reference.seeded)
        [Connection 7 Reference.transactions_db None] 9.

End Scenarios.

(** * Properties *)

Import Sqlite3 App Spec.

(** ** Strings *)



Lemma startswith_spec p s :
  startswith p s = true <-> exists rest, s = p +:+ rest.
Proof.
  revert s; induction p as [|a p IH]; intros s; simpl.
  - split; [exists s; reflexivity | reflexivity].
  - destruct s as [|b s].
    + split; [discriminate | intros [r E]; discriminate].
    + rewrite andb_true_iff, Ascii.eqb_eq, IH. split.
      * intros [-> [r ->]]. now exists r.
      * intros [r E]. injection E as -> ->. split; [reflexivity | now exists r].
Qed.


(** ** The classifier *)



Lemma col_type_of_text t : col_type_of (CText t) = Return (upper t).
Proof.
  unfold col_type_of, truthy. destruct (String.eqb_spec t "") as [->|]; reflexivity.
Qed.



(** ** [query_database] *)

Section Query.
Context `{!Sql.Outside}.
Variable DATABASES : list (string * string).

(** Every path through [query_database], with the world it leaves. *)
Lemma query_database_paths db_name q w :
  match dict_get String.eqb db_name DATABASES with
  | None =>
      query_database DATABASES db_name q w
      = (Raise (ValueError ("Database '" +:+ db_name +:+ "' not found.")), w)
  | Some path =>
      match Sql.connect_fault path with
      | Some msg =>
          query_database DATABASES db_name q w
          = (Return (Envelope false [] [] (Some msg)), w)
      | None =>
          match Sql.run q [] (stored w path) with
          | inl msg =>
              query_database DATABASES db_name q w
              = (Return (Envelope false [] [] (Some msg)),
                 World (files w) (open_conns w) (S (next_handle w)))
          | inr (db', rs) =>
              query_database DATABASES db_name q w
              = (Return (Envelope true (header_of rs)
                                  (fetchall (cursor_of rs)) None),
                 World (if is_dml q then files w else <[path := db']> (files w))
                       (open_conns w) (S (next_handle w)))
          end
      end
  end.
Proof.
  unfold query_database, get_connection.
  destruct (dict_get String.eqb db_name DATABASES) as [path|]; [|reflexivity].
  unfold bind, connect, ret.
  destruct (Sql.connect_fault path) as [msg|]; [reflexivity|].
  unfold execute, bind, step, stored; simpl. rewrite Nat.eqb_refl; simpl.
  destruct (Sql.run q [] (default [] (files w !! path))) as [msg|[db' rs]];
    [simpl; rewrite Nat.eqb_refl; reflexivity|].
  destruct (is_dml q); simpl; rewrite ?Nat.eqb_refl; simpl;
    destruct rs as [[[|d ds] rows]|]; simpl; rewrite ?map_id; reflexivity.
Qed.

(** C1.  A database name that the registry does not hold: [get_connection]
    raises [ValueError], which [except sqlite3.Error] does not catch, and
    [query_database] passes it on to its caller instead of returning an
    envelope; no connection was opened. *)
Theorem unknown_database_raises db_name q w :
  dict_get String.eqb db_name DATABASES = None ->
  query_database DATABASES db_name q w
  = (Raise (ValueError ("Database '" +:+ db_name +:+ "' not found.")), w).
Proof.
  intros E. pose proof (query_database_paths db_name q w) as P.
  now rewrite E in P.
Qed.






(** C4.  Every envelope that [query_database] returns keeps the invariant:
    [success] is true exactly when there is no error, and a failure has no
    columns, no rows and an error. *)
Theorem envelope_invariant_holds db_name q w env w' :
  query_database DATABASES db_name q w = (Return env, w') ->
  envelope_invariant env.
Proof.
  pose proof (query_database_paths db_name q w) as P.
  destruct (dict_get String.eqb db_name DATABASES) as [path|];
    [|rewrite P; discriminate].
  destruct (Sql.connect_fault path) as [msg|];
    [|destruct (Sql.run q [] (stored w path)) as [msg|[db' rs]]];
    rewrite P; intros [= <- _]; unfold envelope_invariant; simpl;
    intuition congruence.
Qed.

(** C6.  Whatever the name and the statement, the connections open after
    [query_database] are those open before it: the one it opened is closed
    on the success path and on the error path alike. *)
Theorem query_database_closes_connection db_name q w :
  open_conns (snd (query_database DATABASES db_name q w)) = open_conns w.
Proof.
  pose proof (query_database_paths db_name q w) as P.
  destruct (dict_get String.eqb db_name DATABASES) as [path|];
    [|now rewrite P].
  destruct (Sql.connect_fault path) as [msg|]; [now rewrite P|].
  destruct (Sql.run q [] (stored w path)) as [msg|[db' rs]]; now rewrite P.
Qed.

Lemma table_info_rows_length cid cols :
  Forall (fun row => length row = 6) (Sql.table_info_rows cid cols).
Proof.
  revert cid; induction cols as [|c cols IH]; intros cid; simpl;
    constructor; [reflexivity | apply IH].
Qed.

Lemma exec_rectangular st params db db' rs :
  Sql.exec st params db = Some (inr (db', rs)) -> rectangular rs.
Proof.
  destruct st; simpl.
  - destruct (negb _); intros [= <- <-]; exact I.
  - destruct (Sql.find_table name db); [discriminate|].
    destruct (negb _); intros [= <- <-]; exact I.
  - destruct (Sql.find_table name db) as [t|]; [|discriminate].
    destruct (Sql.insert_into t name cols nvalues params) as [[m|t']|];
      try discriminate.
    intros [= <- <-]; exact I.
  - destruct (negb _); [discriminate|]. intros [= <- <-]. split; [discriminate|].
    apply Forall_forall. intros row Hin. apply list_elem_of_In, in_map_iff in Hin.
    now destruct Hin as (t & <- & _).
  - destruct (negb _); [discriminate|]. intros [= <- <-]. split; [discriminate|].
    destruct (Sql.find_table name db); [apply table_info_rows_length | constructor].
Qed.

Lemma run_rectangular q params db db' rs :
  results_rectangular -> Sql.run q params db = inr (db', rs) -> rectangular rs.
Proof.
  intros Ho. unfold Sql.run. destruct (Sql.read q) as [st| |].
  - destruct (Sql.exec st params db) as [[m|[d r]]|] eqn:E.
    + discriminate.
    + intros [= <- <-]. eapply exec_rectangular, E.
    + apply Ho.
  - discriminate.
  - apply Ho.
Qed.

(** C10.  In a successful envelope every row has as many cells as there
    are column names, and with no column names (a statement without a
    result set) there are no rows either. *)
Theorem successful_rows_rectangular db_name q w env w' :
  results_rectangular ->
  query_database DATABASES db_name q w = (Return env, w') ->
  success env = true ->
  Forall (fun row => length row = length (columns env)) (data env) /\
  (columns env = [] -> data env = []).
Proof.
  intros Hr. pose proof (query_database_paths db_name q w) as P.
  destruct (dict_get String.eqb db_name DATABASES) as [path|];
    [|rewrite P; discriminate].
  destruct (Sql.connect_fault path) as [msg|];
    [rewrite P; intros [= <- _]; discriminate|].
  destruct (Sql.run q [] (stored w path)) as [msg|[db' rs]] eqn:Er;
    rewrite P; intros [= <- _]; [discriminate|]. intros _; simpl.
  pose proof (run_rectangular _ _ _ _ _ Hr Er) as R.
  destruct rs as [[[|d ds] rows]|]; simpl in *.
  - now destruct R.
  - split; [apply R | discriminate].
  - split; [constructor | reflexivity].
Qed.

End Query.

(** ** The binding, step by step *)

Section Steps.
Context `{!Sql.Outside}.

Lemma connect_ok path w :
  Sql.connect_fault path = None ->
  connect path w
  = (Return (next_handle w),
     World (files w) (Connection (next_handle w) path None :: open_conns w)
           (S (next_handle w))).
Proof. intros E. unfold connect. now rewrite E. Qed.

Lemma connect_cases path w :
  (exists msg, Sql.connect_fault path = Some msg /\
               connect path w = (Raise (sqlite3_Error msg), w)) \/
  (Sql.connect_fault path = None /\
   connect path w
   = (Return (next_handle w),
      World (files w) (Connection (next_handle w) path None :: open_conns w)
            (S (next_handle w)))).
Proof.
  destruct (Sql.connect_fault path) as [msg|] eqn:E.
  - left. exists msg. split; [reflexivity|]. unfold connect. now rewrite E.
  - right. split; [reflexivity | now apply connect_ok].
Qed.

(** [execute] on the connection opened last, outside a transaction, with a
    statement that is not DML. *)
Lemma execute_autocommit h p cs fs nx q :
  is_dml q = false ->
  execute h q (World fs (Connection h p None :: cs) nx)
  = match Sql.run q [] (default [] (fs !! p)) with
    | inl msg =>
        (Raise (sqlite3_Error msg), World fs (Connection h p None :: cs) nx)
    | inr (db', rs) =>
        (Return (cursor_of rs),
         World (<[p := db']> fs) (Connection h p None :: cs) nx)
    end.
Proof.
  intros Ed. unfold execute, bind, step, stored; simpl.
  rewrite Nat.eqb_refl, Ed; simpl.
  destruct (Sql.run q [] (default [] (fs !! p))) as [msg|[db' rs]]; reflexivity.
Qed.




Lemma bind_return {A B} (m : M A) (k : A -> M B) w a w' :
  m w = (Return a, w') -> bind m k w = k a w'.
Proof. intros E. unfold bind. now rewrite E. Qed.

Lemma bind_raise {A B} (m : M A) (k : A -> M B) w e w' :
  m w = (Raise e, w') -> bind m k w = (Raise e, w').
Proof. intros E. unfold bind. now rewrite E. Qed.

(** What a loop keeps, when each turn keeps it. *)
Lemma for_each_keeps {A S} (P : world -> Prop) (body : A -> S -> M S) xs :
  (forall x acc w, P w -> P (snd (body x acc w))) ->
  forall acc w, P w -> P (snd (for_each body xs acc w)).
Proof.
  intros Hb. induction xs as [|x xs IH]; intros acc w Hw; simpl; [exact Hw|].
  unfold bind. pose proof (Hb x acc w Hw) as H1.
  destruct (body x acc w) as [[a|e] w1]; simpl in *; [now apply IH | exact H1].
Qed.

Lemma for_each_app {A S} (body : A -> S -> M S) xs ys acc :
  forall w,
    for_each body (xs ++ ys) acc w
    = bind (for_each body xs acc) (for_each body ys) w.
Proof.
  revert acc; induction xs as [|x xs IH]; intros acc w; simpl.
  - reflexivity.
  - unfold bind in *. destruct (body x acc w) as [[a|e] w1]; [apply IH | reflexivity].
Qed.

End Steps.

(** ** [get_schema] reads *)

Section Inspect.
Context `{!Sql.Outside}.

Lemma same_stores_refl w : same_stores w w.
Proof. intros path. reflexivity. Qed.

Lemma same_stores_trans w1 w2 w3 :
  same_stores w1 w2 -> same_stores w2 w3 -> same_stores w1 w3.
Proof. intros H12 H23 path. now rewrite H23, H12. Qed.

Lemma read_select_tables :
  Sql.read select_tables = Sql.Statement Sql.SelectUserTables.
Proof. reflexivity. Qed.

Lemma run_select_tables db :
  Sql.run select_tables [] db
  = inr (db, Some (["name"],
                   map (fun t => [CText (Sql.t_name t)]) (user_tables db))).
Proof. reflexivity. Qed.

(** Whatever the table is called, the text built for it starts with a
    word, a word and a parenthesis, so that the fragment reads it as
    [PRAGMA table_info] or not at all. *)
Lemma parse_table_info_shape ts st :
  Sql.parse (Sql.TWord "PRAGMA" :: Sql.TWord "table_info" :: Sql.TLParen :: ts)
  = Some st ->
  exists n, st = Sql.PragmaTableInfo n.
Proof.
  destruct ts as [|[] [|[] [|]]]; simpl; try discriminate.
  destruct (negb _); [|discriminate]. intros [= <-]. eauto.
Qed.

Lemma read_table_info_shape name st :
  Sql.read (table_info_text name) = Sql.Statement st ->
  exists n, st = Sql.PragmaTableInfo n.
Proof.
  unfold Sql.read, table_info_text.
  change (Sql.tokens ("PRAGMA table_info('" +:+ name +:+ "')"))
    with (Sql.push (Sql.TWord "PRAGMA")
            (Sql.push (Sql.TWord "table_info")
               (Sql.push Sql.TLParen (Sql.lex (Sql.InStr "") (name +:+ "')"))))).
  destruct (Sql.lex (Sql.InStr "") (name +:+ "')")) as [ts| |];
    cbn [Sql.push]; try discriminate.
  destruct (Sql.parse (Sql.TWord "PRAGMA" :: Sql.TWord "table_info"
                         :: Sql.TLParen :: ts)) as [st'|] eqn:E;
    [|discriminate].
  intros [= <-]. eapply parse_table_info_shape, E.
Qed.

Lemma run_table_info_reads name db db' rs :
  table_info_reads_only ->
  Sql.run (table_info_text name) [] db = inr (db', rs) -> db' = db.
Proof.
  intros Ho. unfold Sql.run.
  destruct (Sql.read (table_info_text name)) as [st| |] eqn:Er.
  - destruct (read_table_info_shape _ _ Er) as [n ->]. simpl.
    now intros [= <- _].
  - discriminate.
  - apply Ho. reflexivity.
Qed.

(** A reading statement on the connection opened last leaves the
    connection as it is and every database as it is. *)
Lemma execute_reads h p cs q w :
  is_dml q = false ->
  (forall db db' rs, Sql.run q [] db = inr (db', rs) -> db' = db) ->
  open_conns w = Connection h p None :: cs ->
  open_conns (snd (execute h q w)) = Connection h p None :: cs /\
  same_stores w (snd (execute h q w)).
Proof.
  intros Ed Hr Ho. destruct w as [fs os nx]; simpl in Ho; subst os.
  rewrite execute_autocommit by exact Ed.
  destruct (Sql.run q [] (default [] (fs !! p))) as [msg|[db' rs]] eqn:E; simpl.
  - split; [reflexivity | apply same_stores_refl].
  - split; [reflexivity|]. apply Hr in E; subst db'.
    intros path. unfold stored; simpl.
    destruct (decide (p = path)) as [->|Hne].
    + now rewrite lookup_insert_eq.
    + now rewrite lookup_insert_ne.
Qed.

Lemma columns_with_types_pure rows w : snd (columns_with_types rows w) = w.
Proof.
  unfold columns_with_types.
  apply (for_each_keeps (fun w' => w' = w)); [|reflexivity].
  intros row acc w0 ->. unfold bind, lift, ret.
  destruct (column_with_type row); reflexivity.
Qed.

Lemma set_table_pure d table v s w : snd (set_table d table v s w) = w.
Proof. unfold set_table. destruct (dict_get _ d s); reflexivity. Qed.

Lemma inspect_table_reads h p cs d table s w :
  table_info_reads_only ->
  open_conns w = Connection h p None :: cs ->
  open_conns (snd (inspect_table h d table s w))
  = Connection h p None :: cs /\
  same_stores w (snd (inspect_table h d table s w)).
Proof.
  intros Ho Hc. unfold inspect_table, bind.
  destruct (execute_reads h p cs (table_info_text (format table)) w)
    as [H1 H2]; [reflexivity | intros; eapply run_table_info_reads; eauto | exact Hc |].
  unfold table_info_text in *.
  destruct (execute h _ w) as [[cur|e] w1]; simpl in *; [|now split].
  pose proof (columns_with_types_pure (fetchall cur) w1) as Hp.
  destruct (columns_with_types (fetchall cur) w1) as [[v|e] w2]; simpl in *;
    subst w2; [|now split].
  rewrite set_table_pure. now split.
Qed.

Lemma tables_loop_pure (rows : list (list cell)) (acc : list cell) w :
  snd (for_each (fun row tables =>
                   bind (lift (getitem row 0)) (fun t => ret (tables ++ [t])))
                rows acc w) = w.
Proof.
  apply (for_each_keeps (fun w' => w' = w)); [|reflexivity].
  intros row a w0 ->. unfold bind, lift, ret.
  destruct (getitem row 0); reflexivity.
Qed.

(** One database of the registry: every database is left as it was, and
    when the turn ends without an exception its connection is closed. *)
Lemma inspect_database_reads entry s w :
  table_info_reads_only ->
  same_stores w (snd (inspect_database entry s w)) /\
  (forall s', fst (inspect_database entry s w) = Return s' ->
              open_conns (snd (inspect_database entry s w)) = open_conns w).
Proof.
  intros Ho. destruct entry as [d p]. unfold inspect_database, bind.
  destruct (connect_cases p w) as [(msg & _ & E) | (_ & E)]; rewrite E.
  { split; [apply same_stores_refl | discriminate]. }
  set (h := next_handle w).
  set (w1 := World (files w) (Connection h p None :: open_conns w) (S h)).
  assert (S1 : same_stores w w1) by (intros path; reflexivity).
  destruct (execute_reads h p (open_conns w) select_tables w1)
    as [C2 S2]; [reflexivity | | reflexivity |].
  { intros db db' rs. rewrite run_select_tables. now intros [= <- _]. }
  pose proof (fun w2 => same_stores_trans w w1 w2 S1) as S12.
  destruct (execute h select_tables w1) as [[cur|e] w2]; simpl in C2, S2;
    [|simpl; split; [exact (S12 _ S2) | discriminate]].
  pose proof (tables_loop_pure (fetchall cur) [] w2) as Hp.
  destruct (for_each _ (fetchall cur) [] w2) as [[tables|e] w2']; simpl in Hp;
    subst w2'; [|simpl; split; [exact (S12 _ S2) | discriminate]].
  pose proof (for_each_keeps
                (fun w' => open_conns w' = Connection h p None :: open_conns w
                           /\ same_stores w2 w')
                (inspect_table h d) tables) as K.
  specialize (K (fun x acc w0 '(conj Hc Hs) =>
                   let '(conj Hc' Hs') :=
                     inspect_table_reads h p (open_conns w) d x acc w0 Ho Hc in
                   conj Hc' (same_stores_trans _ _ _ Hs Hs'))).
  specialize (K (dict_set String.eqb d [] s) w2 (conj C2 (same_stores_refl w2))).
  destruct (for_each (inspect_table h d) tables _ w2) as [[s3|e] w3];
    simpl in K; destruct K as [C3 S3].
  - simpl. split.
    + intros path. change (stored w3 path = stored w path).
      exact (same_stores_trans _ _ _ (S12 _ S2) S3 path).
    + intros s' _. rewrite C3. simpl. now rewrite Nat.eqb_refl.
  - simpl. split; [|discriminate].
    exact (same_stores_trans _ _ _ (S12 _ S2) S3).
Qed.

(** C9.  [get_schema] leaves every database as it found it, whether it
    returns or raises: it sends the catalog query and [PRAGMA table_info]
    and nothing else.  (A file that was not there is created empty by the
    connection, which is the database it already stood for.) *)
Theorem get_schema_reads_only DATABASES w :
  table_info_reads_only ->
  forall path, stored (snd (get_schema DATABASES w)) path = stored w path.
Proof.
  intros Ho. unfold get_schema.
  apply (for_each_keeps (same_stores w) inspect_database DATABASES);
    [|apply same_stores_refl].
  intros entry acc w0 Hs. eapply same_stores_trans; [exact Hs|].
  apply inspect_database_reads, Ho.
Qed.

End Inspect.

(** ** [get_schema] and its connections *)

(** C2.  [get_schema] has no [finally]: when a statement raises, its
    [conn.close()] is not reached.  With a table whose name holds a quote
    the text built for [PRAGMA table_info] leaves a literal open; the
    engine refuses it, [get_schema] raises, and the connection to the
    flights database stays open. *)
Theorem get_schema_leaves_connection_open `{!Sql.Outside} :
  Sql.connect_fault Reference.flights_db = None ->
  exists msg,
    get_schema (configured Reference.base_dir) Reference.with_quoted_table
    = (Raise (sqlite3_Error msg),
       World {[ Reference.flights_db := [Reference.quoted_table] ]}
             [Connection 0 Reference.flights_db None] 1).
Proof.
  intros Hc. exists "unrecognized token".
  unfold get_schema, configured. cbn [for_each].
  change (path_join Reference.base_dir "flights.db") with Reference.flights_db.
  unfold inspect_database at 1. unfold bind at 1.
  rewrite (bind_return _ _ _ _ _ (connect_ok Reference.flights_db _ Hc)).
  vm_compute. reflexivity.
Qed.

Lemma get_schema_leaves_connection_open_witness :
  open_conns
    (snd (get_schema (H := Reference.fragment_only)
            (configured Reference.base_dir) Reference.with_quoted_table))
  = [Connection 0 Reference.flights_db None].
Proof.
  destruct (get_schema_leaves_connection_open (H := Reference.fragment_only)
              eq_refl) as [msg E].
  now rewrite E.
Defined.

(** ** The store *)






(** ** [create_example_databases] *)

Section Seeding.
Context `{!Sql.Outside}.

Lemma run_statement q st params db a :
  Sql.read q = Sql.Statement st ->
  Sql.exec st params db = Some a ->
  Sql.run q params db = a.
Proof. intros Er Ee. unfold Sql.run. now rewrite Er, Ee. Qed.


Lemma execute_statement h p cs fs nx q st db' rs :
  is_dml q = false ->
  Sql.read q = Sql.Statement st ->
  Sql.exec st [] (default [] (fs !! p)) = Some (inr (db', rs)) ->
  execute h q (World fs (Connection h p None :: cs) nx)
  = (Return (cursor_of rs),
     World (<[p := db']> fs) (Connection h p None :: cs) nx).
Proof.
  intros Ed Er Ee. rewrite execute_autocommit by exact Ed.
  now rewrite (run_statement _ _ _ _ _ Er Ee).
Qed.









End Seeding.

(** ** Dictionaries *)

Section Dict_facts.
Context {K V : Type} (eqb : K -> K -> bool).

Lemma dict_get_set_eq k (v : V) d :
  eqb k k = true -> dict_get eqb k (dict_set eqb k v d) = Some v.
Proof.
  intros Hr. induction d as [|[k' v'] d IH]; simpl.
  - now rewrite Hr.
  - destruct (eqb k k') eqn:E; simpl; [now rewrite Hr | now rewrite E].
Qed.

Lemma dict_get_set_ne k1 k2 (v : V) d :
  eqb k1 k2 = false ->
  (forall k', eqb k2 k' = true -> eqb k1 k' = false) ->
  dict_get eqb k1 (dict_set eqb k2 v d) = dict_get eqb k1 d.
Proof.
  intros Hne Ht. induction d as [|[k' v'] d IH]; simpl.
  - now rewrite Hne.
  - destruct (eqb k2 k') eqn:E; simpl.
    + now rewrite Hne, (Ht _ E).
    + now rewrite IH.
Qed.

End Dict_facts.

Lemma names_get_set_ne {V} d1 d2 (v : V) s :
  d1 <> d2 ->
  dict_get String.eqb d1 (dict_set String.eqb d2 v s)
  = dict_get String.eqb d1 s.
Proof.
  intros Hne. apply dict_get_set_ne.
  - now apply String.eqb_neq.
  - intros k' ->%String.eqb_eq. now apply String.eqb_neq.
Qed.

Lemma tables_get_set_ne {V} n1 n2 (v : V) inner :
  n1 <> n2 ->
  dict_get cell_eqb (CText n1) (dict_set cell_eqb (CText n2) v inner)
  = dict_get cell_eqb (CText n1) inner.
Proof.
  intros Hne. apply dict_get_set_ne.
  - now apply String.eqb_neq.
  - intros [] E; simpl in *; try discriminate. apply String.eqb_eq in E.
    subst. now apply String.eqb_neq.
Qed.

(** ** Reading the text built for a table *)

Lemma rev_app_rev_app a b c :
  String.rev_app (String.rev_app a b) c = String.rev_app b (a +:+ c).
Proof.
  revert b c; induction a as [|x a IH]; intros b c; simpl; [reflexivity|].
  now rewrite IH.
Qed.

Lemma append_empty s : s +:+ "" = s.
Proof.
  induction s as [|c s IH]; [reflexivity|].
  change (String c (s +:+ "") = String c s). now rewrite IH.
Qed.

Lemma lex_in_literal name acc :
  quote_free name = true ->
  Sql.lex (Sql.InStr acc) (name +:+ "')")
  = Sql.Lexed [Sql.TStr (String.rev (String.rev_app name acc)); Sql.TRParen].
Proof.
  revert acc; induction name as [|c name IH]; intros acc Hq.
  - reflexivity.
  - simpl in Hq. apply andb_true_iff in Hq as [Hc Hq].
    simpl. destruct (Ascii.eqb c "'"); [discriminate|].
    now rewrite IH.
Qed.

Lemma parse_table_info name :
  Sql.parse [Sql.TWord "PRAGMA"; Sql.TWord "table_info"; Sql.TLParen;
             Sql.TStr name; Sql.TRParen]
  = if negb (startswith "SQLITE_" (upper name))
    then Some (Sql.PragmaTableInfo name) else None.
Proof. reflexivity. Qed.

Lemma read_table_info_plain name :
  quote_free name = true ->
  startswith "SQLITE_" (upper name) = false ->
  Sql.read (table_info_text name)
  = Sql.Statement (Sql.PragmaTableInfo name).
Proof.
  intros Hq Hs. unfold Sql.read, table_info_text.
  change (Sql.tokens ("PRAGMA table_info('" +:+ name +:+ "')"))
    with (Sql.push (Sql.TWord "PRAGMA")
            (Sql.push (Sql.TWord "table_info")
               (Sql.push Sql.TLParen (Sql.lex (Sql.InStr "") (name +:+ "')"))))).
  rewrite (lex_in_literal _ _ Hq). unfold String.rev.
  rewrite rev_app_rev_app. cbn [String.rev_app Sql.push].
  rewrite append_empty, parse_table_info, Hs. reflexivity.
Qed.

(** ** The order of columns *)

Section Order.
Context `{!Sql.Outside}.

(** The row that [PRAGMA table_info] gives for a column becomes the
    column's string. *)
Lemma column_with_type_info cid c :
  column_with_type
    [CInt cid; CText (Sql.c_name c); CText (Sql.c_decl c); CInt 0; CNull;
     CInt (if Sql.c_pk c then 1 else 0)]
  = Return (column_string c).
Proof.
  unfold column_with_type, getitem. cbn [nth_error].
  now rewrite col_type_of_text.
Qed.

Lemma columns_loop_info cols w :
  forall cid acc,
    for_each (fun row columns_with_types =>
                bind (lift (column_with_type row))
                     (fun html_repr => ret (columns_with_types ++ [html_repr])))
             (Sql.table_info_rows cid cols) acc w
    = (Return (acc ++ map column_string cols), w).
Proof.
  induction cols as [|c cols IH]; intros cid acc; simpl.
  - now rewrite app_nil_r.
  - unfold bind at 1. unfold bind at 1, lift.
    rewrite column_with_type_info. unfold ret at 1.
    rewrite IH, <- app_assoc. reflexivity.
Qed.

(** The loop over the rows of a table keeps their order: one string per
    declared column, in declaration order. *)
Lemma columns_with_types_info cols w :
  columns_with_types (Sql.table_info_rows 0 cols) w
  = (Return (map column_string cols), w).
Proof. unfold columns_with_types. now rewrite columns_loop_info. Qed.

Lemma length_upper s : String.length (upper s) = String.length s.
Proof. induction s as [|c s IH]; simpl; [reflexivity | now rewrite IH]. Qed.

Lemma length_append a b :
  String.length (a +:+ b) = String.length a + String.length b.
Proof.
  induction a as [|c a IH]; [reflexivity|].
  change (S (String.length (a +:+ b)) = S (String.length a + String.length b)).
  now rewrite IH.
Qed.

(** A table that the catalog query lists does not have a reserved name. *)
Lemma user_table_name n :
  Sql.like_sqlite_ n = false -> startswith "SQLITE_" (upper n) = false.
Proof.
  intros Hl. destruct (startswith "SQLITE_" (upper n)) eqn:E; [|reflexivity].
  apply startswith_spec in E as [r E].
  unfold Sql.like_sqlite_ in Hl. apply andb_false_iff in Hl as [Hl|Hl].
  - assert (startswith "SQLITE" (upper n) = true) as Hs; [|congruence].
    apply startswith_spec. exists ("_" +:+ r). now rewrite E.
  - apply Nat.ltb_ge in Hl. rewrite <- length_upper, E, length_append in Hl.
    simpl in Hl. lia.
Qed.

(** One table with a plain name: what [inspect_table] stores for it. *)
Lemma inspect_table_plain h p cs d n s w :
  open_conns w = Connection h p None :: cs ->
  quote_free n = true ->
  startswith "SQLITE_" (upper n) = false ->
  fst (inspect_table h d (CText n) s w)
  = match dict_get String.eqb d s with
    | Some inner =>
        Return (dict_set String.eqb d
                  (dict_set cell_eqb (CText n)
                            (table_strings (stored w p) n) inner) s)
    | None => Raise (KeyError d)
    end.
Proof.
  intros Hc Hq Hs. destruct w as [fs os nx]; simpl in Hc; subst os.
  unfold inspect_table. cbn [format].
  erewrite bind_return; cycle 1.
  { apply execute_statement with (st := Sql.PragmaTableInfo n);
      [reflexivity | now apply read_table_info_plain | reflexivity]. }
  cbn [cursor_of fetchall]. unfold table_strings, stored; cbn [files].
  destruct (Sql.find_table n (default [] (fs !! p))) as [t|].
  - rewrite (bind_return _ _ _ _ _ (columns_with_types_info _ _)).
    unfold set_table. destruct (dict_get String.eqb d s); reflexivity.
  - unfold set_table. simpl. destruct (dict_get String.eqb d s); reflexivity.
Qed.

(** Any table: [inspect_table] sets one key in the tables of [db_name]. *)
Lemma inspect_table_shape h d table s w s' w' :
  inspect_table h d table s w = (Return s', w') ->
  exists inner v,
    dict_get String.eqb d s = Some inner /\
    s' = dict_set String.eqb d (dict_set cell_eqb table v inner) s.
Proof.
  unfold inspect_table, bind.
  destruct (execute h _ w) as [[cur|e] w1]; [|discriminate].
  destruct (columns_with_types (fetchall cur) w1) as [[v|e] w2];
    [|discriminate].
  unfold set_table. destruct (dict_get String.eqb d s) as [inner|];
    [|discriminate].
  intros [= <- _]. now exists inner, v.
Qed.

(** The loop over the tables of one database.  Other databases' entries
    are not touched; under [db_name], every plain name of the loop ends
    with the strings of its table, and every other key is as before. *)
Lemma tables_loop h p cs d db names :
  table_info_reads_only ->
  forall s w s' w',
    open_conns w = Connection h p None :: cs ->
    stored w p = db ->
    for_each (inspect_table h d) (map CText names) s w = (Return s', w') ->
    (forall d', d' <> d ->
                dict_get String.eqb d' s' = dict_get String.eqb d' s) /\
    (forall inner,
        dict_get String.eqb d s = Some inner ->
        exists inner',
          dict_get String.eqb d s' = Some inner' /\
          forall n,
            (In n names -> quote_free n = true ->
             startswith "SQLITE_" (upper n) = false ->
             dict_get cell_eqb (CText n) inner' = Some (table_strings db n)) /\
            (~ In n names ->
             dict_get cell_eqb (CText n) inner'
             = dict_get cell_eqb (CText n) inner)).
Proof.
  intros Ho. induction names as [|n0 names IH]; intros s w s' w' Hc Hdb E.
  - simpl in E. injection E as <- <-. split; [reflexivity|].
    intros inner Hi. exists inner. split; [exact Hi|]. intros n.
    split; [intros [] | reflexivity].
  - cbn [map for_each] in E. unfold bind in E.
    pose proof (inspect_table_reads h p cs d (CText n0) s w Ho Hc) as [Hc1 Hs1].
    pose proof (inspect_table_plain h p cs d n0 s w Hc) as Hplain.
    destruct (inspect_table h d (CText n0) s w) as [[s1|e] w1] eqn:E1;
      [|discriminate].
    simpl in Hc1, Hs1, Hplain.
    destruct (inspect_table_shape _ _ _ _ _ _ _ E1) as (inner0 & v & Hi0 & ->).
    assert (Hdb1 : stored w1 p = db) by (now rewrite Hs1).
    destruct (IH _ _ _ _ Hc1 Hdb1 E) as [IHa IHb]. split.
    + intros d' Hd. rewrite (IHa d' Hd). now apply names_get_set_ne.
    + intros inner Hi. rewrite Hi0 in Hi. injection Hi as <-.
      destruct (IHb (dict_set cell_eqb (CText n0) v inner0)) as (inner' & Hi' & Hn).
      { apply dict_get_set_eq, String.eqb_refl. }
      exists inner'. split; [exact Hi'|]. intros n. split.
      * intros Hin Hq Hr.
        destruct (in_dec String.string_dec n names) as [Hin'|Hout].
        { now apply (proj1 (Hn n)). }
        destruct Hin as [->|]; [|contradiction].
        rewrite (proj2 (Hn n) Hout).
        rewrite Hi0 in Hplain. specialize (Hplain Hq Hr).
        injection Hplain as Hplain.
        assert (Some (dict_set cell_eqb (CText n) v inner0)
                = Some (dict_set cell_eqb (CText n)
                                 (table_strings (stored w p) n) inner0)) as Hv.
        { rewrite <- (dict_get_set_eq String.eqb d
                        (dict_set cell_eqb (CText n) v inner0) s
                        (String.eqb_refl d)).
          rewrite Hplain. apply dict_get_set_eq, String.eqb_refl. }
        injection Hv as ->. rewrite Hdb.
        apply dict_get_set_eq. simpl. apply String.eqb_refl.
      * intros Hout. rewrite (proj2 (Hn n)) by (intros Hin; apply Hout; now right).
        apply tables_get_set_ne. intros ->. apply Hout. now left.
Qed.

Lemma tables_of_rows (l : list Sql.table) w :
  forall acc,
    for_each (fun row tables =>
                bind (lift (getitem row 0)) (fun t => ret (tables ++ [t])))
             (map (fun t => [CText (Sql.t_name t)]) l) acc w
    = (Return (acc ++ map CText (map Sql.t_name l)), w).
Proof.
  induction l as [|t l IH]; intros acc; simpl.
  - now rewrite app_nil_r.
  - unfold bind at 1. unfold bind at 1, lift, getitem. cbn [nth_error].
    unfold ret at 1. rewrite IH, <- app_assoc. reflexivity.
Qed.

Lemma find_table_In name db t : Sql.find_table name db = Some t -> In t db.
Proof.
  induction db as [|x db IH]; simpl; [discriminate|].
  destruct (Sql.same_name name (Sql.t_name x)).
  - intros [= ->]. now left.
  - intros E. right. now apply IH.
Qed.

(** One database of the registry, when its turn ends without an
    exception. *)
Lemma inspect_database_result d p s w s' w' :
  table_info_reads_only ->
  inspect_database (d, p) s w = (Return s', w') ->
  (forall d', d' <> d ->
              dict_get String.eqb d' s' = dict_get String.eqb d' s) /\
  exists inner',
    dict_get String.eqb d s' = Some inner' /\
    forall t,
      Sql.find_table (Sql.t_name t) (stored w p) = Some t ->
      Sql.like_sqlite_ (Sql.t_name t) = false ->
      quote_free (Sql.t_name t) = true ->
      dict_get cell_eqb (CText (Sql.t_name t)) inner'
      = Some (map column_string (Sql.t_columns t)).
Proof.
  intros Ho. unfold inspect_database.
  destruct (connect_cases p w) as [(msg & _ & E) | (_ & E)].
  { rewrite (bind_raise _ _ _ _ _ E). discriminate. }
  rewrite (bind_return _ _ _ _ _ E).
  erewrite bind_return; cycle 1.
  { apply execute_statement with (st := Sql.SelectUserTables);
      reflexivity. }
  cbn [cursor_of fetchall].
  rewrite (bind_return _ _ _ _ _ (tables_of_rows _ _ [])). cbn [app].
  set (db := default [] (files w !! p)).
  set (w2 := World _ _ _). unfold bind.
  destruct (for_each (inspect_table (next_handle w) d) _ _ w2)
    as [[s3|e] w3] eqn:E3; [|discriminate].
  simpl. intros [= <- _].
  destruct (tables_loop (next_handle w) p (open_conns w) d db
              (map Sql.t_name (user_tables db)) Ho
              (dict_set String.eqb d [] s) w2 s3 w3 eq_refl
              ltac:(unfold stored, w2; cbn [files];
                    now rewrite lookup_insert_eq) E3) as [Ha Hb].
  split.
  - intros d' Hd. rewrite (Ha d' Hd). now apply names_get_set_ne.
  - destruct (Hb []) as (inner' & Hi' & Hn).
    { apply dict_get_set_eq, String.eqb_refl. }
    exists inner'. split; [exact Hi'|]. intros t Hf Hl Hq.
    change (stored w p) with db in Hf.
    rewrite (proj1 (Hn (Sql.t_name t))).
    + unfold table_strings. now rewrite Hf.
    + apply in_map. apply filter_In. split; [eapply find_table_In, Hf|].
      now rewrite Hl.
    + exact Hq.
    + now apply user_table_name.
Qed.

(** All databases of the registry. *)
Lemma get_schema_result DATABASES :
  table_info_reads_only ->
  NoDup (map fst DATABASES) ->
  forall s w s' w',
    for_each inspect_database DATABASES s w = (Return s', w') ->
    (forall d', ~ In d' (map fst DATABASES) ->
                dict_get String.eqb d' s' = dict_get String.eqb d' s) /\
    forall d p t,
      dict_get String.eqb d DATABASES = Some p ->
      Sql.find_table (Sql.t_name t) (stored w p) = Some t ->
      Sql.like_sqlite_ (Sql.t_name t) = false ->
      quote_free (Sql.t_name t) = true ->
      exists tables,
        dict_get String.eqb d s' = Some tables /\
        dict_get cell_eqb (CText (Sql.t_name t)) tables
        = Some (map column_string (Sql.t_columns t)).
Proof.
  intros Ho. induction DATABASES as [|[d0 p0] D IH]; intros Hnd s w s' w' E.
  - simpl in E. injection E as <- <-. split; [reflexivity|].
    intros d p t Hd. discriminate.
  - cbn [for_each] in E. unfold bind in E.
    pose proof (inspect_database_reads (d0, p0) s w Ho) as [Hs1 _].
    destruct (inspect_database (d0, p0) s w) as [[s1|e] w1] eqn:E1;
      [|discriminate].
    simpl in Hs1. apply NoDup_cons in Hnd as [Hd0 Hnd].
    destruct (inspect_database_result _ _ _ _ _ _ Ho E1) as [Ha (inner & Hi & Hb)].
    destruct (IH Hnd _ _ _ _ E) as [IHa IHb]. split.
    + intros d' Hd'. simpl in Hd'. rewrite IHa by tauto.
      apply Ha. intros ->. apply Hd'. now left.
    + intros d p t Hd Hf Hl Hq. simpl in Hd.
      destruct (String.eqb_spec d d0) as [->|Hne].
      * injection Hd as <-. exists inner. split; [|now apply Hb].
        rewrite IHa; [exact Hi|]. intros Hin. apply Hd0.
        now apply list_elem_of_In.
      * apply (IHb d p t Hd); [|exact Hl | exact Hq]. now rewrite Hs1.
Qed.


End Order.

(** ** The theorems at work

    Each theorem that rests on a hypothesis is applied once in the
    reference setting, where its hypotheses are checked by running the
    model. *)


Lemma fragment_only_rectangular :
  results_rectangular (H := Reference.fragment_only).
Proof. intros q params db db' rs. discriminate. Defined.

Lemma fragment_only_reads :
  table_info_reads_only (H := Reference.fragment_only).
Proof. intros q params db db' rs _. discriminate. Defined.

Lemma unknown_database_raises_witness :
  query_database (H := Reference.fragment_only)
    (configured Reference.base_dir) "nope" "SELECT 1" Reference.seeded
  = (Raise (ValueError "Database 'nope' not found."), Reference.seeded).
Proof.
  apply (unknown_database_raises (H := Reference.fragment_only)).
  reflexivity.
Defined.


Lemma envelope_invariant_holds_witness :
  envelope_invariant (Envelope false [] [] (Some "syntax error")).
Proof.
  apply (envelope_invariant_holds (H := Reference.fragment_only)
           (configured Reference.base_dir) "flights" "SELEC 1"
           Reference.first_start _
           (World ∅ [] 1)).
  vm_compute. reflexivity.
Defined.

Lemma successful_rows_rectangular_witness :
  Forall (fun row => length row = length ["name"]) [[CText "flights"]] /\
  (["name"] = [] -> [[CText "flights"]] = []).
Proof.
  apply (successful_rows_rectangular (H := Reference.fragment_only)
           (configured Reference.base_dir) "flights" select_tables
           Reference.seeded
           (Envelope true ["name"] [[CText "flights"]] None)
           (snd (query_database (H := Reference.fragment_only)
                   (configured Reference.base_dir) "flights" select_tables
                   Reference.seeded))).
  - exact fragment_only_rectangular.
  - vm_compute. reflexivity.
  - reflexivity.
Defined.


Lemma get_schema_reads_only_witness :
  stored (snd (get_schema (H := Reference.fragment_only)
                 (configured Reference.base_dir) Reference.seeded))
         Reference.flights_db
  = stored Reference.seeded Reference.flights_db.
Proof.
  apply (get_schema_reads_only (H := Reference.fragment_only)).
  exact fragment_only_reads.
Defined.


(** * Further properties of the program *)

Import Scenarios.

(** ** What [query_database] does to the databases *)

Section Query_effects.
Context `{!Sql.Outside}.
Variable DATABASES : list (string * string).

(** X1.  [query_database] never commits.  A statement that the binding
    takes for DML (INSERT, UPDATE, DELETE, REPLACE) runs inside the
    transaction that the binding opens for it, and [conn.close()] drops
    that transaction: whatever the engine answered, every database file is
    as it was. *)
Theorem dml_is_not_persisted db_name q w :
  is_dml q = true ->
  files (snd (query_database DATABASES db_name q w)) = files w.
Proof.
  intros Hd. pose proof (query_database_paths DATABASES db_name q w) as P.
  destruct (dict_get String.eqb db_name DATABASES) as [path|];
    [|now rewrite P].
  destruct (Sql.connect_fault path) as [msg|]; [now rewrite P|].
  destruct (Sql.run q [] (stored w path)) as [msg|[db' rs]];
    rewrite P; [reflexivity|]. simpl. now rewrite Hd.
Qed.



End Query_effects.

Lemma dml_is_not_persisted_witness :
  fst (query_database (H := with_delete) (configured Reference.base_dir)
         "flights" delete_flights Reference.seeded)
  = Return (Envelope true [] [] None) /\
  files (snd (query_database (H := with_delete)
                (configured Reference.base_dir) "flights" delete_flights
                Reference.seeded))
  = files Reference.seeded.
Proof.
  split; [vm_compute; reflexivity|].
  apply (dml_is_not_persisted (H := with_delete)). reflexivity.
Defined.



(** ** What [get_schema] returns, when it returns *)

Section Schema_facts.
Context `{!Sql.Outside}.

(** What a loop that ends without an exception keeps of the world. *)
Lemma for_each_returned {A S} (P : world -> Prop) (body : A -> S -> M S) xs :
  (forall x acc w a w', P w -> body x acc w = (Return a, w') -> P w') ->
  forall acc w s' w',
    P w -> for_each body xs acc w = (Return s', w') -> P w'.
Proof.
  intros Hb. induction xs as [|x xs IH]; intros acc w s' w' Hw E; simpl in E.
  - now injection E as _ <-.
  - unfold bind in E. destruct (body x acc w) as [[a|e] w1] eqn:E1;
      [|discriminate].
    eapply IH; [|exact E]. eapply Hb; eassumption.
Qed.

(** What it keeps of what it builds. *)
Lemma for_each_built {A S} (Q : S -> Prop) (body : A -> S -> M S) xs :
  (forall x acc w a w', Q acc -> body x acc w = (Return a, w') -> Q a) ->
  forall acc w s' w',
    Q acc -> for_each body xs acc w = (Return s', w') -> Q s'.
Proof.
  intros Hb. induction xs as [|x xs IH]; intros acc w s' w' Hq E; simpl in E.
  - now injection E as <- _.
  - unfold bind in E. destruct (body x acc w) as [[a|e] w1] eqn:E1;
      [|discriminate].
    eapply IH; [|exact E]. eapply Hb; eassumption.
Qed.

(** Every turn of a loop that ends without an exception did so itself. *)
Lemma for_each_turns {A S} (body : A -> S -> M S) xs :
  forall acc w s' w',
    for_each body xs acc w = (Return s', w') ->
    forall x, In x xs ->
    exists acc0 w0 a w1, body x acc0 w0 = (Return a, w1).
Proof.
  induction xs as [|x0 xs IH]; intros acc w s' w' E x Hin; [destruct Hin|].
  simpl in E. unfold bind in E.
  destruct (body x0 acc w) as [[a|e] w1] eqn:E1; [|discriminate].
  destruct Hin as [<-|Hin]; [now exists acc, w, a, w1|].
  eapply IH; eassumption.
Qed.

Lemma execute_keeps_connection h p cs q w :
  is_dml q = false ->
  open_conns w = Connection h p None :: cs ->
  open_conns (snd (execute h q w)) = Connection h p None :: cs.
Proof.
  intros Ed Ho. destruct w as [fs os nx]; simpl in Ho; subst os.
  rewrite execute_autocommit by exact Ed.
  destruct (Sql.run q [] (default [] (fs !! p))) as [msg|[db' rs]];
    reflexivity.
Qed.

Lemma inspect_table_keeps_connection h p cs d table s w :
  open_conns w = Connection h p None :: cs ->
  open_conns (snd (inspect_table h d table s w)) = Connection h p None :: cs.
Proof.
  intros Hc. unfold inspect_table, bind.
  pose proof (execute_keeps_connection h p cs
                (table_info_text (format table)) w eq_refl Hc) as H1.
  unfold table_info_text in H1.
  destruct (execute h _ w) as [[cur|e] w1]; simpl in *; [|exact H1].
  pose proof (columns_with_types_pure (fetchall cur) w1) as Hp.
  destruct (columns_with_types (fetchall cur) w1) as [[v|e] w2]; simpl in *;
    subst w2; [|exact H1].
  now rewrite set_table_pure.
Qed.

Lemma inspect_database_closes entry s w s' w' :
  inspect_database entry s w = (Return s', w') ->
  open_conns w' = open_conns w /\ Sql.connect_fault (snd entry) = None.
Proof.
  destruct entry as [d p]. unfold inspect_database.
  destruct (connect_cases p w) as [(msg & _ & E) | (Hf & E)].
  { rewrite (bind_raise _ _ _ _ _ E). discriminate. }
  rewrite (bind_return _ _ _ _ _ E). unfold bind.
  set (h := next_handle w).
  set (w1 := World (files w) (Connection h p None :: open_conns w) (S h)).
  pose proof (execute_keeps_connection h p (open_conns w) select_tables w1
                eq_refl eq_refl) as C2.
  destruct (execute h select_tables w1) as [[cur|e] w2]; [|discriminate].
  simpl in C2.
  pose proof (tables_loop_pure (fetchall cur) [] w2) as Hp.
  destruct (for_each _ (fetchall cur) [] w2) as [[tables|e] w2'];
    simpl in Hp; subst w2'; [|discriminate].
  pose proof (for_each_keeps
                (fun w' => open_conns w' = Connection h p None :: open_conns w)
                (inspect_table h d) tables
                (fun x acc w0 Hc =>
                   inspect_table_keeps_connection h p (open_conns w) d x acc w0 Hc)
                (dict_set String.eqb d [] s) w2 C2) as C3.
  destruct (for_each (inspect_table h d) tables _ w2) as [[s3|e] w3];
    [|discriminate].
  simpl in C3. simpl. intros [= _ <-]. simpl. rewrite C3. simpl.
  rewrite Nat.eqb_refl. now split.
Qed.

(** X4.  When [get_schema] returns, every connection it opened is closed:
    the open connections are those that were open before the call.  (The
    paths on which it raises are another matter, see C2.) *)
Theorem get_schema_closes_when_it_returns DATABASES w snapshot w' :
  get_schema DATABASES w = (Return snapshot, w') ->
  open_conns w' = open_conns w.
Proof.
  unfold get_schema.
  apply (for_each_returned (fun w0 => open_conns w0 = open_conns w)
           inspect_database DATABASES); [|reflexivity].
  intros entry acc w0 a w1 Hw E.
  rewrite <- Hw. eapply inspect_database_closes, E.
Qed.

(** X5.  [get_schema] gives all or nothing: it returns a snapshot only if
    every configured database could be opened; one that cannot be opened
    makes the whole call raise. *)
Theorem get_schema_needs_every_database DATABASES w snapshot w' :
  get_schema DATABASES w = (Return snapshot, w') ->
  forall db_name db_path,
    In (db_name, db_path) DATABASES -> Sql.connect_fault db_path = None.
Proof.
  unfold get_schema. intros E d p Hin.
  destruct (for_each_turns inspect_database DATABASES _ _ _ _ E (d, p) Hin)
    as (acc0 & w0 & a & w1 & E1).
  exact (proj2 (inspect_database_closes _ _ _ _ _ E1)).
Qed.

(** Keys of a dictionary after an assignment. *)
Lemma names_get_none (V : Type) k (d : list (string * V)) :
  dict_get String.eqb k d = None <-> ~ In k (map fst d).
Proof.
  induction d as [|[k' v'] d IH]; simpl; [tauto|].
  destruct (String.eqb_spec k k') as [->|Hne].
  - split; [discriminate | intros Hn; exfalso; apply Hn; now left].
  - rewrite IH. split; [intros Hn [E|Hin]; [now apply Hne | now apply Hn]
                       | intros Hn Hin; apply Hn; now right].
Qed.

Lemma names_set_present (V : Type) k (v v0 : V) d :
  dict_get String.eqb k d = Some v0 ->
  map fst (dict_set String.eqb k v d) = map fst d.
Proof.
  induction d as [|[k' v'] d IH]; simpl; [discriminate|].
  destruct (String.eqb_spec k k') as [->|Hne]; simpl; [reflexivity|].
  intros E. now rewrite IH.
Qed.

Lemma names_set_absent (V : Type) k (v : V) d :
  ~ In k (map fst d) ->
  map fst (dict_set String.eqb k v d) = map fst d ++ [k].
Proof.
  induction d as [|[k' v'] d IH]; simpl; [reflexivity|]. intros Hn.
  destruct (String.eqb_spec k k') as [->|Hne]; simpl.
  - exfalso. apply Hn. now left.
  - rewrite IH; [reflexivity|]. intros Hin. apply Hn. now right.
Qed.

Lemma tables_set_absent (V : Type) n (v : V) inner :
  ~ In (CText n) (map fst inner) ->
  map fst (dict_set cell_eqb (CText n) v inner) = map fst inner ++ [CText n].
Proof.
  induction inner as [|[k' v'] inner IH]; [reflexivity|]. intros Hn.
  cbn [dict_set]. destruct (cell_eqb (CText n) k') eqn:E.
  - exfalso. apply Hn. left. destruct k'; simpl in E; try discriminate.
    apply String.eqb_eq in E. now subst.
  - cbn [map fst app]. rewrite IH; [reflexivity|].
    intros Hin. apply Hn. now right.
Qed.

(** One database of the registry, when its turn ends without an
    exception: the turn is the loop over the names of its user tables, in
    the order of the catalog, started from an empty entry. *)
Lemma inspect_database_turn d p s w s' w' :
  inspect_database (d, p) s w = (Return s', w') ->
  exists w2 w3,
    for_each (inspect_table (next_handle w) d)
             (map CText (map Sql.t_name (user_tables (stored w p))))
             (dict_set String.eqb d [] s) w2
    = (Return s', w3).
Proof.
  unfold inspect_database.
  destruct (connect_cases p w) as [(msg & _ & E) | (_ & E)].
  { rewrite (bind_raise _ _ _ _ _ E). discriminate. }
  rewrite (bind_return _ _ _ _ _ E).
  erewrite bind_return; cycle 1.
  { apply execute_statement with (st := Sql.SelectUserTables);
      reflexivity. }
  cbn [cursor_of fetchall].
  rewrite (bind_return _ _ _ _ _ (tables_of_rows _ _ [])). cbn [app].
  set (w2 := World _ _ _). unfold bind.
  destruct (for_each (inspect_table (next_handle w) d) _ _ w2)
    as [[s3|e] w3] eqn:E3; [|discriminate].
  simpl. intros [= <- _]. now exists w2, w3.
Qed.

Lemma inspect_database_names entry s w s' w' :
  inspect_database entry s w = (Return s', w') ->
  map fst s' = map fst (dict_set String.eqb (fst entry) [] s).
Proof.
  destruct entry as [d p]. intros E.
  destruct (inspect_database_turn _ _ _ _ _ _ E) as (w2 & w3 & E3).
  apply (for_each_built
           (fun a => map fst a = map fst (dict_set String.eqb d [] s))
           (inspect_table (next_handle w) d) _) in E3; [exact E3| |reflexivity].
  intros x acc w0 a w1 Hq Ex.
  destruct (inspect_table_shape _ _ _ _ _ _ _ Ex) as (inner & v & Hi & ->).
  now rewrite (names_set_present _ _ _ _ _ Hi).
Qed.

Lemma get_schema_names DATABASES :
  NoDup (map fst DATABASES) ->
  forall s w s' w',
    (forall d, In d (map fst DATABASES) -> ~ In d (map fst s)) ->
    for_each inspect_database DATABASES s w = (Return s', w') ->
    map fst s' = map fst s ++ map fst DATABASES.
Proof.
  induction DATABASES as [|[d0 p0] D IH]; intros Hnd s w s' w' Hdis E.
  - simpl in E. injection E as <- _. now rewrite app_nil_r.
  - cbn [for_each] in E. unfold bind in E.
    destruct (inspect_database (d0, p0) s w) as [[s1|e] w1] eqn:E1;
      [|discriminate].
    apply NoDup_cons in Hnd as [Hd0 Hnd].
    pose proof (inspect_database_names _ _ _ _ _ E1) as K1. simpl in K1.
    rewrite names_set_absent in K1 by (apply Hdis; now left).
    rewrite (IH Hnd s1 w1 s' w'); [| |exact E].
    + rewrite K1, <- app_assoc. reflexivity.
    + intros d Hd. rewrite K1, in_app_iff. intros [Hin|[->|[]]].
      * apply (Hdis d); [now right | exact Hin].
      * apply Hd0. now apply list_elem_of_In.
Qed.

(** X6.  The snapshot that [get_schema] returns has one entry for every
    configured database, in the order of the registry, also for a
    database without tables. *)
Theorem snapshot_lists_every_database DATABASES w snapshot w' :
  NoDup (map fst DATABASES) ->
  get_schema DATABASES w = (Return snapshot, w') ->
  map fst snapshot = map fst DATABASES.
Proof.
  intros Hnd E.
  exact (get_schema_names DATABASES Hnd [] w snapshot w' (fun _ _ H => H) E).
Qed.

(** The loop over the tables of one database adds one key per name, in
    the order of the names. *)
Lemma tables_loop_names h d names :
  NoDup names ->
  forall s w s' w' inner,
    dict_get String.eqb d s = Some inner ->
    (forall n, In n names -> ~ In (CText n) (map fst inner)) ->
    for_each (inspect_table h d) (map CText names) s w = (Return s', w') ->
    exists inner',
      dict_get String.eqb d s' = Some inner' /\
      map fst inner' = map fst inner ++ map CText names.
Proof.
  induction names as [|n0 names IH]; intros Hnd s w s' w' inner Hi Hdis E.
  - simpl in E. injection E as <- _. exists inner.
    now rewrite app_nil_r.
  - cbn [map for_each] in E. unfold bind in E.
    destruct (inspect_table h d (CText n0) s w) as [[s1|e] w1] eqn:E1;
      [|discriminate].
    destruct (inspect_table_shape _ _ _ _ _ _ _ E1) as (inner0 & v & Hi0 & ->).
    rewrite Hi in Hi0. injection Hi0 as <-.
    apply NoDup_cons in Hnd as [Hn0 Hnd].
    assert (K : map fst (dict_set cell_eqb (CText n0) v inner)
                = map fst inner ++ [CText n0]).
    { apply tables_set_absent, Hdis. now left. }
    assert (Hdis' : forall n, In n names ->
                    ~ In (CText n)
                         (map fst (dict_set cell_eqb (CText n0) v inner))).
    { intros n Hn. rewrite K, in_app_iff. intros [Hin|[[= ->]|[]]].
      - apply (Hdis n); [now right | exact Hin].
      - apply Hn0. now apply list_elem_of_In. }
    destruct (IH Hnd _ _ _ _ (dict_set cell_eqb (CText n0) v inner)
                (dict_get_set_eq String.eqb d _ s (String.eqb_refl d))
                Hdis' E) as (inner' & Hi' & Hk').
    exists inner'. split; [exact Hi'|].
    rewrite Hk', K, <- app_assoc. reflexivity.
Qed.

Lemma inspect_database_tables d p s w s' w' :
  NoDup (map Sql.t_name (user_tables (stored w p))) ->
  inspect_database (d, p) s w = (Return s', w') ->
  exists tables,
    dict_get String.eqb d s' = Some tables /\
    map fst tables = map CText (map Sql.t_name (user_tables (stored w p))).
Proof.
  intros Hnd E.
  destruct (inspect_database_turn _ _ _ _ _ _ E) as (w2 & w3 & E3).
  exact (tables_loop_names _ d _ Hnd _ _ _ _ []
           (dict_get_set_eq String.eqb d _ s (String.eqb_refl d))
           (fun _ _ H => H) E3).
Qed.

Lemma get_schema_tables DATABASES :
  table_info_reads_only ->
  NoDup (map fst DATABASES) ->
  forall s w s' w',
    for_each inspect_database DATABASES s w = (Return s', w') ->
    forall d p,
      dict_get String.eqb d DATABASES = Some p ->
      NoDup (map Sql.t_name (user_tables (stored w p))) ->
      exists tables,
        dict_get String.eqb d s' = Some tables /\
        map fst tables = map CText (map Sql.t_name (user_tables (stored w p))).
Proof.
  intros Ho. induction DATABASES as [|[d0 p0] D IH]; intros Hnd s w s' w' E d p Hd Hu.
  - discriminate.
  - cbn [for_each] in E. unfold bind in E.
    pose proof (inspect_database_reads (d0, p0) s w Ho) as [Hs1 _].
    destruct (inspect_database (d0, p0) s w) as [[s1|e] w1] eqn:E1;
      [|discriminate].
    simpl in Hs1. apply NoDup_cons in Hnd as [Hd0 Hnd].
    simpl in Hd. destruct (String.eqb_spec d d0) as [->|Hne].
    + injection Hd as <-.
      destruct (inspect_database_tables _ _ _ _ _ _ Hu E1) as (tables & Ht & Hk).
      exists tables. split; [|exact Hk].
      rewrite (proj1 (get_schema_result D Ho Hnd s1 w1 s' w' E));
        [exact Ht|].
      intros Hin. apply Hd0. now apply list_elem_of_In.
    + rewrite <- (Hs1 p). apply (IH Hnd s1 w1 s' w' E d p Hd).
      now rewrite (Hs1 p).
Qed.

(** X7.  Under every configured database the snapshot lists exactly the
    user tables of that database (those whose name does not begin with
    sqlite_), each once, in the order in which the catalog gives them: no
    table is left out and none is invented. *)
Theorem snapshot_lists_user_tables DATABASES w snapshot w' db_name db_path :
  table_info_reads_only ->
  NoDup (map fst DATABASES) ->
  dict_get String.eqb db_name DATABASES = Some db_path ->
  NoDup (map Sql.t_name (user_tables (stored w db_path))) ->
  get_schema DATABASES w = (Return snapshot, w') ->
  exists tables,
    dict_get String.eqb db_name snapshot = Some tables /\
    map fst tables
    = map CText (map Sql.t_name (user_tables (stored w db_path))).
Proof.
  intros Ho Hnd Hd Hu E.
  exact (get_schema_tables DATABASES Ho Hnd [] w snapshot w' E
           db_name db_path Hd Hu).
Qed.

End Schema_facts.

(** ** What [create_example_databases] does to the databases *)



Section Seeding_facts.
Context `{!Sql.Outside}.
Variable BASE_DIR : string.






End Seeding_facts.

(** ** What the snapshot depends on *)

Section Snapshot_facts.
Context `{!Sql.Outside}.

(** A loop whose turns do not look at the world gives the same outcome in
    every world. *)
Lemma for_each_lift_anywhere {A B S} (g : A -> outcome B) (k : S -> B -> S) xs :
  forall acc w w',
    fst (for_each (fun x acc => bind (lift (g x)) (fun y => ret (k acc y)))
                  xs acc w)
    = fst (for_each (fun x acc => bind (lift (g x)) (fun y => ret (k acc y)))
                    xs acc w').
Proof.
  induction xs as [|x xs IH]; intros acc w w'; [reflexivity|].
  cbn [for_each]. unfold bind at 1 3. unfold bind at 1 2, lift.
  destruct (g x) as [y|e]; [|reflexivity]. unfold ret at 1 2. apply IH.
Qed.

(** What [execute] answers, on the connection opened last. *)
Lemma execute_answer h p cs q w :
  is_dml q = false ->
  open_conns w = Connection h p None :: cs ->
  fst (execute h q w)
  = match Sql.run q [] (stored w p) with
    | inl msg => Raise (sqlite3_Error msg)
    | inr (_, rs) => Return (cursor_of rs)
    end.
Proof.
  intros Ed Hc. destruct w as [fs os nx]; simpl in Hc; subst os.
  rewrite execute_autocommit by exact Ed. unfold stored; cbn [files].
  destruct (Sql.run q [] (default [] (fs !! p))) as [msg|[db' rs]];
    reflexivity.
Qed.

(** The body of the loop over the tables answers by the database alone. *)
Lemma inspect_table_answer h1 h2 p cs1 cs2 d table s w1 w2 :
  open_conns w1 = Connection h1 p None :: cs1 ->
  open_conns w2 = Connection h2 p None :: cs2 ->
  stored w1 p = stored w2 p ->
  fst (inspect_table h1 d table s w1) = fst (inspect_table h2 d table s w2).
Proof.
  intros C1 C2 Hs. unfold inspect_table, bind.
  pose proof (execute_answer h1 p cs1
                ("PRAGMA table_info('" +:+ format table +:+ "')") w1
                eq_refl C1) as A1.
  pose proof (execute_answer h2 p cs2
                ("PRAGMA table_info('" +:+ format table +:+ "')") w2
                eq_refl C2) as A2.
  rewrite Hs in A1. rewrite <- A2 in A1. clear A2.
  destruct (execute h1 _ w1) as [[cur1|e1] w1'];
    destruct (execute h2 _ w2) as [[cur2|e2] w2'];
    simpl in A1; try discriminate; [|simpl; congruence].
  injection A1 as ->.
  assert (A3 : fst (columns_with_types (fetchall cur2) w1')
               = fst (columns_with_types (fetchall cur2) w2'))
    by apply (for_each_lift_anywhere column_with_type
                (fun acc y => acc ++ [y])).
  destruct (columns_with_types (fetchall cur2) w1') as [[v1|e1] w1''];
    destruct (columns_with_types (fetchall cur2) w2') as [[v2|e2] w2''];
    simpl in A3; try discriminate; [|simpl; congruence].
  injection A3 as ->. unfold set_table.
  destruct (dict_get String.eqb d s); reflexivity.
Qed.

Lemma tables_loop_answer h1 h2 p cs1 cs2 d tables :
  table_info_reads_only ->
  forall s w1 w2,
    open_conns w1 = Connection h1 p None :: cs1 ->
    open_conns w2 = Connection h2 p None :: cs2 ->
    stored w1 p = stored w2 p ->
    fst (for_each (inspect_table h1 d) tables s w1)
    = fst (for_each (inspect_table h2 d) tables s w2).
Proof.
  intros Ho. induction tables as [|t tables IH]; intros s w1 w2 C1 C2 Hs;
    [reflexivity|].
  cbn [for_each]. unfold bind.
  pose proof (inspect_table_answer h1 h2 p cs1 cs2 d t s w1 w2 C1 C2 Hs) as A.
  destruct (inspect_table_reads h1 p cs1 d t s w1 Ho C1) as [C1' S1].
  destruct (inspect_table_reads h2 p cs2 d t s w2 Ho C2) as [C2' S2].
  destruct (inspect_table h1 d t s w1) as [[s1|e1] w1'];
    destruct (inspect_table h2 d t s w2) as [[s2|e2] w2'];
    simpl in A, C1', S1, C2', S2; try discriminate; [|simpl; exact A].
  injection A as ->. apply IH; [exact C1' | exact C2'|].
  now rewrite (S1 p), (S2 p).
Qed.

(** One database of the registry, from the loop over its tables on. *)
Lemma inspect_database_steps d p s w :
  Sql.connect_fault p = None ->
  inspect_database (d, p) s w
  = bind (for_each (inspect_table (next_handle w) d)
                   (map CText (map Sql.t_name (user_tables (stored w p))))
                   (dict_set String.eqb d [] s))
         (fun schema => bind (close (next_handle w)) (fun _ => ret schema))
         (World (<[p := stored w p]> (files w))
                (Connection (next_handle w) p None :: open_conns w)
                (S (next_handle w))).
Proof.
  intros Hf. unfold inspect_database.
  rewrite (bind_return _ _ _ _ _ (connect_ok p w Hf)).
  erewrite bind_return; cycle 1.
  { apply execute_statement with (st := Sql.SelectUserTables);
      reflexivity. }
  cbn [cursor_of fetchall].
  rewrite (bind_return _ _ _ _ _ (tables_of_rows _ _ [])). reflexivity.
Qed.

Lemma inspect_database_answer entry s w1 w2 :
  table_info_reads_only ->
  (forall path, stored w1 path = stored w2 path) ->
  fst (inspect_database entry s w1) = fst (inspect_database entry s w2).
Proof.
  intros Ho Hs. destruct entry as [d p].
  destruct (Sql.connect_fault p) as [msg|] eqn:Hf.
  { unfold inspect_database, bind, connect. now rewrite Hf. }
  rewrite !inspect_database_steps by exact Hf. rewrite (Hs p).
  set (w1' := World _ _ _). set (w2' := World (<[p:=_]> (files w2)) _ _).
  pose proof (tables_loop_answer (next_handle w1) (next_handle w2) p
                (open_conns w1) (open_conns w2) d
                (map CText (map Sql.t_name (user_tables (stored w2 p)))) Ho
                (dict_set String.eqb d [] s) w1' w2' eq_refl eq_refl) as A.
  unfold bind at 1 3.
  destruct (for_each (inspect_table (next_handle w1) d) _ _ w1')
    as [[s1|e1] w1''];
    destruct (for_each (inspect_table (next_handle w2) d) _ _ w2')
      as [[s2|e2] w2''].
  all: cbn [fst] in A.
  all: specialize (A ltac:(unfold stored, w1', w2'; cbn [files];
                           now rewrite !lookup_insert_eq)).
  all: try discriminate.
  - injection A as ->. reflexivity.
  - simpl. exact A.
Qed.

Lemma get_schema_answer DATABASES :
  table_info_reads_only ->
  forall s w1 w2,
    (forall path, stored w1 path = stored w2 path) ->
    fst (for_each inspect_database DATABASES s w1)
    = fst (for_each inspect_database DATABASES s w2).
Proof.
  intros Ho. induction DATABASES as [|entry D IH]; intros s w1 w2 Hs;
    [reflexivity|].
  cbn [for_each]. unfold bind.
  pose proof (inspect_database_answer entry s w1 w2 Ho Hs) as A.
  destruct (inspect_database_reads entry s w1 Ho) as [S1 _].
  destruct (inspect_database_reads entry s w2 Ho) as [S2 _].
  destruct (inspect_database entry s w1) as [[s1|e1] w1'];
    destruct (inspect_database entry s w2) as [[s2|e2] w2'];
    simpl in A, S1, S2; try discriminate; [|simpl; exact A].
  injection A as ->. apply IH. intros path.
  now rewrite (S1 path), (S2 path).
Qed.

(** X11.  What [get_schema] answers depends on the contents of the
    databases and on nothing else: neither on the connections that happen
    to be open nor on what the process did before.  Two calls that find
    the same databases give the same snapshot, or raise the same
    exception. *)
Theorem snapshot_depends_on_the_databases_only DATABASES w1 w2 :
  table_info_reads_only ->
  (forall path, stored w1 path = stored w2 path) ->
  fst (get_schema DATABASES w1) = fst (get_schema DATABASES w2).
Proof.
  intros Ho Hs. now apply get_schema_answer.
Qed.

End Snapshot_facts.

(** ** Table names that hold quotes *)

Lemma lex_in_quoted name acc :
  Sql.lex (Sql.InStr acc) (sql_quote name +:+ "')")
  = Sql.Lexed [Sql.TStr (String.rev (String.rev_app name acc)); Sql.TRParen].
Proof.
  revert acc; induction name as [|c name IH]; intros acc.
  - reflexivity.
  - cbn [sql_quote]. destruct (Ascii.eqb c "'") eqn:Ec.
    + apply Ascii.eqb_eq in Ec. subst c.
      change (Sql.lex (Sql.InStr acc)
                (String "'" (String "'" (sql_quote name +:+ "')")))
              = Sql.Lexed
                  [Sql.TStr (String.rev
                               (String.rev_app name (String "'" acc)));
                   Sql.TRParen]).
      cbn [Sql.lex]. rewrite Ascii.eqb_refl. apply IH.
    + change (Sql.lex (Sql.InStr acc) (String c (sql_quote name +:+ "')"))
              = Sql.Lexed
                  [Sql.TStr (String.rev (String.rev_app name (String c acc)));
                   Sql.TRParen]).
      cbn [Sql.lex]. rewrite Ec. apply IH.
Qed.

Lemma read_table_info_quoted name :
  startswith "SQLITE_" (upper name) = false ->
  Sql.read (table_info_text (sql_quote name))
  = Sql.Statement (Sql.PragmaTableInfo name).
Proof.
  intros Hs. unfold Sql.read, table_info_text.
  change (Sql.tokens ("PRAGMA table_info('" +:+ sql_quote name +:+ "')"))
    with (Sql.push (Sql.TWord "PRAGMA")
            (Sql.push (Sql.TWord "table_info")
               (Sql.push Sql.TLParen
                  (Sql.lex (Sql.InStr "") (sql_quote name +:+ "')"))))).
  rewrite lex_in_quoted. unfold String.rev.
  rewrite rev_app_rev_app. cbn [String.rev_app Sql.push].
  rewrite append_empty, parse_table_info, Hs. reflexivity.
Qed.

Section Quoted_names.
Context `{!Sql.Outside}.

(** One table whose name is the written form of [name]: the statement
    built for it asks for the table [name]. *)
Lemma inspect_table_quoted h p cs d name s w :
  open_conns w = Connection h p None :: cs ->
  startswith "SQLITE_" (upper name) = false ->
  fst (inspect_table h d (CText (sql_quote name)) s w)
  = match dict_get String.eqb d s with
    | Some inner =>
        Return (dict_set String.eqb d
                  (dict_set cell_eqb (CText (sql_quote name))
                            (table_strings (stored w p) name) inner) s)
    | None => Raise (KeyError d)
    end.
Proof.
  intros Hc Hs. destruct w as [fs os nx]; simpl in Hc; subst os.
  unfold inspect_table. cbn [format].
  erewrite bind_return; cycle 1.
  { apply execute_statement with (st := Sql.PragmaTableInfo name);
      [reflexivity | now apply read_table_info_quoted | reflexivity]. }
  cbn [cursor_of fetchall]. unfold table_strings, stored; cbn [files].
  destruct (Sql.find_table name (default [] (fs !! p))) as [t|].
  - rewrite (bind_return _ _ _ _ _ (columns_with_types_info _ _)).
    unfold set_table. destruct (dict_get String.eqb d s); reflexivity.
  - unfold set_table. simpl. destruct (dict_get String.eqb d s); reflexivity.
Qed.

Lemma tables_loop_quoted h p cs d db names :
  table_info_reads_only ->
  forall s w s' w' inner,
    open_conns w = Connection h p None :: cs ->
    stored w p = db ->
    dict_get String.eqb d s = Some inner ->
    for_each (inspect_table h d) (map CText names) s w = (Return s', w') ->
    exists inner',
      dict_get String.eqb d s' = Some inner' /\
      forall name,
        In (sql_quote name) names ->
        startswith "SQLITE_" (upper name) = false ->
        dict_get cell_eqb (CText (sql_quote name)) inner'
        = Some (table_strings db name).
Proof.
  intros Ho. induction names as [|n0 names IH];
    intros s w s' w' inner Hc Hdb Hi E.
  - simpl in E. injection E as <- _. exists inner. split; [exact Hi|].
    intros name [].
  - cbn [map for_each] in E. unfold bind in E.
    pose proof (inspect_table_reads h p cs d (CText n0) s w Ho Hc) as [Hc1 Hs1].
    destruct (inspect_table h d (CText n0) s w) as [[s1|e] w1] eqn:E1;
      [|discriminate].
    simpl in Hc1, Hs1.
    destruct (inspect_table_shape _ _ _ _ _ _ _ E1) as (inner0 & v & Hi0 & Es1).
    rewrite Hi in Hi0. injection Hi0 as <-.
    assert (Hdb1 : stored w1 p = db) by (now rewrite Hs1).
    assert (Hi1 : dict_get String.eqb d s1
                  = Some (dict_set cell_eqb (CText n0) v inner)).
    { rewrite Es1. apply dict_get_set_eq, String.eqb_refl. }
    destruct (IH _ _ _ _ _ Hc1 Hdb1 Hi1 E) as (inner' & Hi' & Hq).
    exists inner'. split; [exact Hi'|]. intros name Hin Hs.
    destruct (in_dec String.string_dec (sql_quote name) names) as [Hin'|Hout].
    { now apply Hq. }
    destruct Hin as [->|]; [|contradiction].
    destruct (tables_loop h p cs d db names Ho s1 w1 s' w' Hc1 Hdb1 E)
      as [_ Hkeep].
    destruct (Hkeep _ Hi1) as (inner'' & Hi'' & Hn).
    rewrite Hi' in Hi''. injection Hi'' as <-.
    rewrite (proj2 (Hn (sql_quote name)) Hout).
    pose proof (inspect_table_quoted h p cs d name s w Hc Hs) as Hv.
    rewrite E1, Hi, Es1 in Hv. cbn [fst] in Hv. injection Hv as Hv.
    assert (Some (dict_set cell_eqb (CText (sql_quote name)) v inner)
            = Some (dict_set cell_eqb (CText (sql_quote name))
                             (table_strings (stored w p) name) inner)) as Hv'.
    { rewrite <- (dict_get_set_eq String.eqb d
                    (dict_set cell_eqb (CText (sql_quote name)) v inner) s
                    (String.eqb_refl d)).
      rewrite Hv. apply dict_get_set_eq, String.eqb_refl. }
    injection Hv' as ->. rewrite Hdb.
    apply dict_get_set_eq. simpl. apply String.eqb_refl.
Qed.

Lemma inspect_database_quoted d p s w s' w' :
  table_info_reads_only ->
  inspect_database (d, p) s w = (Return s', w') ->
  exists tables,
    dict_get String.eqb d s' = Some tables /\
    forall t name,
      In t (user_tables (stored w p)) ->
      Sql.t_name t = sql_quote name ->
      startswith "SQLITE_" (upper name) = false ->
      dict_get cell_eqb (CText (Sql.t_name t)) tables
      = Some (table_strings (stored w p) name).
Proof.
  intros Ho E.
  destruct (inspect_database_closes _ _ _ _ _ E) as [_ Hf]. cbn [snd] in Hf.
  rewrite (inspect_database_steps d p s w Hf) in E.
  set (w2 := World _ _ _) in E. unfold bind at 1 in E.
  destruct (for_each (inspect_table (next_handle w) d) _ _ w2)
    as [[s3|e] w3] eqn:E3; [|discriminate].
  assert (s3 = s') as -> by (now injection E as ->).
  destruct (tables_loop_quoted (next_handle w) p (open_conns w) d
              (stored w p) (map Sql.t_name (user_tables (stored w p))) Ho
              (dict_set String.eqb d [] s) w2 s' w3 [] eq_refl
              ltac:(unfold stored, w2; cbn [files];
                    now rewrite lookup_insert_eq)
              (dict_get_set_eq String.eqb d _ s (String.eqb_refl d)) E3)
    as (tables & Ht & Hq).
  exists tables. split; [exact Ht|]. intros t name Hin Hn Hs.
  rewrite Hn. apply Hq; [|exact Hs]. rewrite <- Hn. now apply in_map.
Qed.

Lemma get_schema_quoted DATABASES :
  table_info_reads_only ->
  NoDup (map fst DATABASES) ->
  forall s w s' w',
    for_each inspect_database DATABASES s w = (Return s', w') ->
    forall d p t name,
      dict_get String.eqb d DATABASES = Some p ->
      In t (user_tables (stored w p)) ->
      Sql.t_name t = sql_quote name ->
      startswith "SQLITE_" (upper name) = false ->
      exists tables,
        dict_get String.eqb d s' = Some tables /\
        dict_get cell_eqb (CText (Sql.t_name t)) tables
        = Some (table_strings (stored w p) name).
Proof.
  intros Ho. induction DATABASES as [|[d0 p0] D IH];
    intros Hnd s w s' w' E d p t name Hd Hin Hn Hs.
  - discriminate.
  - cbn [for_each] in E. unfold bind in E.
    pose proof (inspect_database_reads (d0, p0) s w Ho) as [Hs1 _].
    destruct (inspect_database (d0, p0) s w) as [[s1|e] w1] eqn:E1;
      [|discriminate].
    simpl in Hs1. apply NoDup_cons in Hnd as [Hd0 Hnd].
    simpl in Hd. destruct (String.eqb_spec d d0) as [->|Hne].
    + injection Hd as <-.
      destruct (inspect_database_quoted _ _ _ _ _ _ Ho E1) as (tables & Ht & Hq).
      exists tables. split; [|now apply Hq].
      rewrite (proj1 (get_schema_result D Ho Hnd s1 w1 s' w' E));
        [exact Ht|].
      intros Hin'. apply Hd0. now apply list_elem_of_In.
    + rewrite <- (Hs1 p).
      apply (IH Hnd s1 w1 s' w' E d p t name Hd); [|exact Hn | exact Hs].
      now rewrite (Hs1 p).
Qed.

(** X12.  [get_schema] puts the name of a table between single quotes
    without doubling the quotes that the name holds.  So a table whose name
    reads as the written form of another name (every quote of that name
    doubled) is listed under its own name with the columns of the table
    that bears the other name, or with no column when there is none.  For
    a name without a quote the two names are the same and the columns are
    the table's own. *)
Theorem quotes_in_a_name_are_read_as_sql DATABASES w snapshot w'
    db_name db_path t name :
  table_info_reads_only ->
  NoDup (map fst DATABASES) ->
  dict_get String.eqb db_name DATABASES = Some db_path ->
  In t (user_tables (stored w db_path)) ->
  Sql.t_name t = sql_quote name ->
  startswith "SQLITE_" (upper name) = false ->
  get_schema DATABASES w = (Return snapshot, w') ->
  exists tables,
    dict_get String.eqb db_name snapshot = Some tables /\
    dict_get cell_eqb (CText (Sql.t_name t)) tables
    = Some (table_strings (stored w db_path) name).
Proof.
  intros Ho Hnd Hd Hin Hn Hs E.
  exact (get_schema_quoted DATABASES Ho Hnd [] w snapshot w' E
           db_name db_path t name Hd Hin Hn Hs).
Qed.

End Quoted_names.

(** ** The further properties at work *)

Lemma configured_names_differ BASE_DIR : NoDup (map fst (configured BASE_DIR)).
Proof.
  repeat constructor; rewrite ?list_elem_of_In; simpl; intuition discriminate.
Defined.

Lemma get_schema_closes_when_it_returns_witness :
  open_conns (snd (get_schema (H := Reference.fragment_only)
                     (configured Reference.base_dir) seeded_later))
  = open_conns seeded_later.
Proof.
  destruct (get_schema (H := Reference.fragment_only)
              (configured Reference.base_dir) seeded_later)
    as [[snapshot|e] w'] eqn:E.
  - exact (get_schema_closes_when_it_returns (H := Reference.fragment_only)
             _ _ _ _ E).
  - vm_compute in E. discriminate.
Defined.

Lemma get_schema_needs_every_database_witness :
  Sql.connect_fault (Outside := Reference.fragment_only)
    Reference.transactions_db = None.
Proof.
  destruct (get_schema (H := Reference.fragment_only)
              (configured Reference.base_dir) Reference.seeded)
    as [[snapshot|e] w'] eqn:E.
  - apply (get_schema_needs_every_database (H := Reference.fragment_only)
             _ _ _ _ E "transactions").
    right. left. reflexivity.
  - vm_compute in E. discriminate.
Defined.

Lemma snapshot_lists_every_database_witness :
  exists snapshot,
    fst (get_schema (H := Reference.fragment_only)
           (configured Reference.base_dir) Reference.first_start)
    = Return snapshot /\
    map fst snapshot = ["flights"; "transactions"].
Proof.
  destruct (get_schema (H := Reference.fragment_only)
              (configured Reference.base_dir) Reference.first_start)
    as [[snapshot|e] w'] eqn:E.
  - exists snapshot. split; [reflexivity|].
    exact (snapshot_lists_every_database (H := Reference.fragment_only)
             _ _ _ _ (configured_names_differ Reference.base_dir) E).
  - vm_compute in E. discriminate.
Defined.

Lemma snapshot_lists_user_tables_witness :
  exists snapshot tables,
    fst (get_schema (H := Reference.fragment_only)
           (configured Reference.base_dir) several_tables)
    = Return snapshot /\
    dict_get String.eqb "flights" snapshot = Some tables /\
    map fst tables = [CText "zeta"; CText "flights"; CText "alpha"].
Proof.
  destruct (get_schema (H := Reference.fragment_only)
              (configured Reference.base_dir) several_tables)
    as [[snapshot|e] w'] eqn:E.
  - destruct (snapshot_lists_user_tables (H := Reference.fragment_only)
                (configured Reference.base_dir) several_tables snapshot w'
                "flights" Reference.flights_db fragment_only_reads
                (configured_names_differ Reference.base_dir) eq_refl)
      as (tables & H1 & H2); [|exact E|].
    + apply (bool_decide_unpack _). vm_compute. reflexivity.
    + exists snapshot, tables. split; [reflexivity|]. split; [exact H1|].
      rewrite H2. vm_compute. reflexivity.
  - vm_compute in E. discriminate.
Defined.




Lemma snapshot_depends_on_the_databases_only_witness :
  fst (get_schema (H := Reference.fragment_only)
         (configured Reference.base_dir) seeded_later)
  = fst (get_schema (H := Reference.fragment_only)
           (configured Reference.base_dir) Reference.seeded).
Proof.
  apply (snapshot_depends_on_the_databases_only (H := Reference.fragment_only)).
  - exact fragment_only_reads.
  - intros path. reflexivity.
Defined.

Lemma quotes_in_a_name_are_read_as_sql_witness :
  exists snapshot tables,
    fst (get_schema (H := Reference.fragment_only)
           (configured Reference.base_dir) with_plain_and_quoted)
    = Return snapshot /\
    dict_get String.eqb "flights" snapshot = Some tables /\
    dict_get cell_eqb (CText "a''''b") tables
    = Some ["x <span class='badge bg-primary ms-1'>INT</span>"].
Proof.
  destruct (get_schema (H := Reference.fragment_only)
              (configured Reference.base_dir) with_plain_and_quoted)
    as [[snapshot|e] w'] eqn:E.
  - destruct (quotes_in_a_name_are_read_as_sql (H := Reference.fragment_only)
                (configured Reference.base_dir) with_plain_and_quoted
                snapshot w' "flights" Reference.flights_db
                (Sql.Table "a''''b" [Sql.Column "y" "TEXT" false] 0 [])
                "a''b" fragment_only_reads
                (configured_names_differ Reference.base_dir) eq_refl)
      as (tables & H1 & H2); [|reflexivity|reflexivity|exact E|].
    + vm_compute. right. left. reflexivity.
    + exists snapshot, tables. split; [reflexivity|]. split; [exact H1|].
      cbn [Sql.t_name] in H2. rewrite H2. vm_compute. reflexivity.
  - vm_compute in E. discriminate.
Defined.

(** ** From the query to the snapshot, and when there is a snapshot *)

Section Across_calls.
Context `{!Sql.Outside}.






End Across_calls.


